(** * particle-fluid: the particle simulation and the motion-based pointer estimator

    A shallow embedding of
      - [src/hooks/useParticleSystem.ts] (initParticles, updateParticles,
        the connection-line loop of renderParticles, setHandPosition), and
      - [src/hooks/useHandTracking.ts]   (processFrame, stop),
    followed by the rest of the two hooks (the alphas of renderParticles,
    animate, start, stop, reinitialize; initialize with its two awaits), the
    glue of [FluidSimulation] (handleHandUpdate, handleResize) and the
    landmark-based variant of the estimator (calculateHandOpenness,
    onResults).

    JavaScript [number]s are read as real numbers: float64 rounding, NaN and
    the infinities are not represented, and the bounds proved are those that
    hold of the rounded values too; the one place where rounding reaches a
    bound, the life span of [initParticles], is evaluated in binary64 in
    [Binary64].  [Math.sqrt], [Math.cos], [Math.sin]
    and [Math.floor] are the functions of the Standard Library's reals;
    [Math.atan2] is defined from [atan] by the usual quadrant cases.
    [Math.random] is the next element of an arbitrary sequence of reals in
    [0,1), read through a cursor that every call advances.  Pixel channels of
    an [ImageData] are integers, and the arithmetic of the estimator, which
    only adds, divides and compares them, is carried out on rationals. *)

From Stdlib Require Import String Reals Lra Lia ZArith Bool QArith Qreals Zfloor List.
From Stdlib Require SpecFloat.
Import ListNotations.

(** ** Numbers *)

Module Num.
Local Open Scope R_scope.

(** [a < b] as the boolean a JavaScript comparison yields. *)
Definition ltb (a b : R) : bool := if Rlt_dec a b then true else false.

(** [Math.atan2(y, x)] on reals. *)
Definition atan2 (y x : R) : R :=
  if Rlt_dec 0 x then atan (y / x)
  else if Rlt_dec x 0 then
    (if Rle_dec 0 y then atan (y / x) + PI else atan (y / x) - PI)
  else if Rlt_dec 0 y then PI / 2
  else if Rlt_dec y 0 then - (PI / 2)
  else 0.

End Num.

(** ** The particle system ([useParticleSystem.ts]) *)

Module ParticleSystem.
Local Open Scope R_scope.
Import Num.

(** [interface Particle]; [px], [py] are the fields [x], [y].  [color] is
    the result of indexing [PARTICLE_COLORS]: [None] stands for
    [undefined]. *)
Record Particle : Type := mkParticle {
  px : R;
  py : R;
  vx : R;
  vy : R;
  radius : R;
  color : option string;
  alpha : R;
  life : R;
  maxLife : R
}.

(** [interface HandPosition]; [hx], [hy] are the fields [x], [y]. *)
Record HandPosition : Type := mkHand {
  hx : R;
  hy : R;
  isOpen : bool
}.

Definition PARTICLE_COLORS : list string :=
  [ "hsl(185, 100%, 55%)"%string;
    "hsl(210, 100%, 60%)"%string;
    "hsl(270, 80%, 65%)"%string;
    "hsl(195, 100%, 50%)"%string;
    "hsl(240, 80%, 60%)"%string ].

(** The refs of the hook: [particlesRef], [handPositionRef], and the cursor
    into the sequence that [Math.random] reads. *)
Record Store : Type := mkStore {
  particles : list Particle;
  handPosition : option HandPosition;
  draws : nat
}.

Definition set_vel (p : Particle) (vx' vy' : R) : Particle :=
  mkParticle (px p) (py p) vx' vy' (radius p) (color p) (alpha p) (life p) (maxLife p).

Definition set_x (p : Particle) (x' vx' : R) : Particle :=
  mkParticle x' (py p) vx' (vy p) (radius p) (color p) (alpha p) (life p) (maxLife p).

Definition set_y (p : Particle) (y' vy' : R) : Particle :=
  mkParticle (px p) y' (vx p) vy' (radius p) (color p) (alpha p) (life p) (maxLife p).

Definition set_life (p : Particle) (alpha' life' : R) : Particle :=
  mkParticle (px p) (py p) (vx p) (vy p) (radius p) (color p) alpha' life' (maxLife p).

(** [particles[i] = q], the write-back of the object mutated in place. *)
Fixpoint store_at (i : nat) (q : Particle) (ps : list Particle) : list Particle :=
  match ps, i with
  | [], _ => []
  | _ :: rest, O => q :: rest
  | p :: rest, S i' => p :: store_at i' q rest
  end.

Section Hook.

(** The arguments of [useParticleSystem] and the random source. *)
Variable random : nat -> R.
Variable particleCount : nat.
Variable interactionRadius : R.
Variable interactionStrength : R.

(** *** initParticles *)

(** The object literal pushed by one iteration; its nine [Math.random()]
    calls are evaluated in source order, starting at cursor [k].  The
    fields are the real values of their expressions; [Binary64] below
    gives the two life fields as binary64 arithmetic rounds them. *)
Definition newParticle (width height : R) (k : nat) : Particle :=
  mkParticle
    (random k * width)
    (random (k + 1) * height)
    ((random (k + 2) - 0.5) * 2)
    ((random (k + 3) - 0.5) * 2)
    (random (k + 4) * 3 + 1)
    (nth_error PARTICLE_COLORS
       (Z.to_nat (Zfloor (random (k + 5) * INR (length PARTICLE_COLORS)))))
    (random (k + 6) * 0.5 + 0.5)
    (random (k + 7) * 100)
    (100 + random (k + 8) * 100).

(** [for (let i = 0; i < particleCount; i++) particles.push({...})],
    with [n] iterations left. *)
Fixpoint initLoop (n : nat) (width height : R) (acc : list Particle) (k : nat)
  : list Particle * nat :=
  match n with
  | O => (acc, k)
  | S n' => initLoop n' width height (acc ++ [newParticle width height k]) (k + 9)
  end.

Definition initParticles (width height : R) (st : Store) : Store :=
  let '(ps, k) := initLoop particleCount width height [] (draws st) in
  mkStore ps (handPosition st) k.

Definition setHandPosition (position : option HandPosition) (st : Store) : Store :=
  mkStore (particles st) position (draws st).

(** *** updateParticles *)

(** Lines 63-78: the hand interaction. *)
Definition pointerForce (hand : option HandPosition) (p : Particle) : Particle :=
  match hand with
  | None => p
  | Some h =>
      let dx := px p - hx h in
      let dy := py p - hy h in
      let distance := sqrt (dx * dx + dy * dy) in
      if ltb distance interactionRadius && ltb 0 distance then
        let force := (interactionRadius - distance) / interactionRadius in
        let angle := atan2 dy dx in
        let direction := if isOpen h then 1 else -1 in
        set_vel p
          (vx p + cos angle * force * interactionStrength * direction)
          (vy p + sin angle * force * interactionStrength * direction)
      else p
  end.

(** Lines 84-93: the body of the inner [forEach] once [particle === other]
    has been ruled out. *)
Definition separation (p other : Particle) : Particle :=
  let dx := px other - px p in
  let dy := py other - py p in
  let distance := sqrt (dx * dx + dy * dy) in
  if ltb distance 20 && ltb 0 distance then
    let force := (20 - distance) / 20 * 0.05 in
    set_vel p (vx p - (dx / distance) * force) (vy p - (dy / distance) * force)
  else p.

(** Lines 81-94: the inner [particles.forEach] run for the particle in
    slot [i]; [j] is the slot of the head of [others].  Two distinct slots
    never hold the same object, so [particle === other] is [i = j]. *)
Fixpoint fluid (i j : nat) (others : list Particle) (p : Particle) : Particle :=
  match others with
  | [] => p
  | other :: rest =>
      fluid i (S j) rest (if Nat.eqb i j then p else separation p other)
  end.

(** Lines 96-105: damping, gravity, position update. *)
Definition integrate (p : Particle) : Particle :=
  let vx1 := vx p * 0.98 in
  let vy1 := vy p * 0.98 + 0.02 in
  mkParticle (px p + vx1) (py p + vy1) vx1 vy1
    (radius p) (color p) (alpha p) (life p) (maxLife p).

(** Lines 107-123: the four boundary tests, in order. *)
Definition bounce (width height : R) (p : Particle) : Particle :=
  let p1 := if ltb (px p) 0 then set_x p 0 (vx p * -0.5) else p in
  let p2 := if ltb width (px p1) then set_x p1 width (vx p1 * -0.5) else p1 in
  let p3 := if ltb (py p2) 0 then set_y p2 0 (vy p2 * -0.5) else p2 in
  if ltb height (py p3) then set_y p3 height (vy p3 * -0.5) else p3.

(** Lines 62-123 for the particle [p] of slot [i], the array being [ps]. *)
Definition move (width height : R) (hand : option HandPosition)
    (ps : list Particle) (i : nat) (p : Particle) : Particle :=
  bounce width height (integrate (fluid i 0 ps (pointerForce hand p))).

(** Lines 125-130: the life counter; a respawn draws a fresh alpha. *)
Definition lifecycle (p : Particle) (k : nat) : Particle * nat :=
  let life1 := life p + 1 in
  if ltb (maxLife p) life1
  then (set_life p (random k * 0.5 + 0.5) 0, S k)
  else (set_life p (alpha p) life1, k).

(** The outer [particles.forEach], at slot [i] with [n] slots left: the
    particle is updated against the array as it is now and stays, mutated,
    in its slot. *)
Fixpoint forEachFrom (n i : nat) (width height : R) (hand : option HandPosition)
    (ps : list Particle) (k : nat) : list Particle * nat :=
  match n with
  | O => (ps, k)
  | S n' =>
      match nth_error ps i with
      | None => (ps, k)
      | Some p =>
          let '(q, k') := lifecycle (move width height hand ps i p) k in
          forEachFrom n' (S i) width height hand (store_at i q ps) k'
      end
  end.

Definition updateParticles (width height : R) (st : Store) : Store :=
  let '(ps, k) :=
    forEachFrom (length (particles st)) 0 width height (handPosition st)
      (particles st) (draws st) in
  mkStore ps (handPosition st) k.

(** The simultaneous update that the specification describes: every
    particle is moved against [snapshot], the array as it was when the tick
    began, whatever has been computed for the slots before it. *)
Fixpoint snapshotFrom (i : nat) (width height : R) (hand : option HandPosition)
    (snapshot todo : list Particle) (k : nat) : list Particle * nat :=
  match todo with
  | [] => ([], k)
  | p :: rest =>
      let '(q, k') := lifecycle (move width height hand snapshot i p) k in
      let '(qs, k'') := snapshotFrom (S i) width height hand snapshot rest k' in
      (q :: qs, k'')
  end.

Definition updateParticles_snapshot (width height : R) (st : Store) : Store :=
  let '(ps, k) :=
    snapshotFrom 0 width height (handPosition st) (particles st)
      (particles st) (draws st) in
  mkStore ps (handPosition st) k.

End Hook.

(** Position and velocity of a particle, the part of it that the physics
    of a tick reads and writes. *)
Definition kinematics (p : Particle) : R * R * R * R :=
  (px p, py p, vx p, vy p).

(** The velocity change that the hand interaction alone gives [p]. *)
Definition pointerDelta (interactionRadius interactionStrength : R)
    (h : HandPosition) (p : Particle) : R * R :=
  let q := pointerForce interactionRadius interactionStrength (Some h) p in
  (vx q - vx p, vy q - vy p).

(** Two particles 15 pixels apart, the first one flying to the left; they
    serve as a test array for the order of the update. *)
Definition fast : Particle := mkParticle 10 10 (-100) 0 2 None 1 0 100.
Definition slow : Particle := mkParticle 25 10 0 0 2 None 1 0 100.

(** *** renderParticles, the connection lines (lines 146-160) *)

(** The canvas calls made by the loop. *)
Inductive CanvasOp : Type :=
| BeginPath
| MoveTo (x y : R)
| LineTo (x y : R)
| GlobalAlpha (a : R)
| Stroke.

(** The loop body for [particles[i]] = [pi] and [particles[j]] = [pj]. *)
Definition connection (pi pj : Particle) : list CanvasOp :=
  let dx := px pi - px pj in
  let dy := py pi - py pj in
  let distance := sqrt (dx * dx + dy * dy) in
  if ltb distance 50 then
    [ BeginPath;
      MoveTo (px pi) (py pj);
      LineTo (px pj) (py pj);
      GlobalAlpha ((50 - distance) / 50 * 0.3);
      Stroke ]
  else [].

(** [for i] over the array, [for j = i + 1] over what follows slot [i]. *)
Fixpoint renderConnections (ps : list Particle) : list CanvasOp :=
  match ps with
  | [] => []
  | pi :: rest => flat_map (connection pi) rest ++ renderConnections rest
  end.

(** The segments a list of canvas calls strokes: the pen position set by
    [MoveTo], then the end point of the following [LineTo]. *)
Fixpoint segments (pen : option (R * R)) (ops : list CanvasOp)
  : list ((R * R) * (R * R)) :=
  match ops with
  | [] => []
  | BeginPath :: rest => segments None rest
  | MoveTo x y :: rest => segments (Some (x, y)) rest
  | LineTo x y :: rest =>
      match pen with
      | Some a => (a, (x, y)) :: segments (Some (x, y)) rest
      | None => segments (Some (x, y)) rest
      end
  | _ :: rest => segments pen rest
  end.

End ParticleSystem.

(** ** The motion-based pointer estimator ([useHandTracking.ts]) *)

Module HandTracking.
Local Open Scope Z_scope.

(** [interface HandData]. *)
Record HandData : Type := mkHandData {
  x : Q;
  y : Q;
  isOpen : bool
}.

(** What [ctx.getImageData] returns: the RGBA bytes, row by row. *)
Record ImageData : Type := mkImageData {
  data : list Z
}.

(** What one call of [processFrame] observes of the browser: the state of
    the video element, whether [canvas.getContext] returned a context, and
    the frame read back after [drawImage] ([None]: one of the two calls
    threw). *)
Record Env : Type := mkEnv {
  paused : bool;
  ended : bool;
  readyState : Z;
  videoWidth : Z;
  videoHeight : Z;
  hasContext : bool;
  capture : option ImageData
}.

(** The refs of the hook.  [video] tells whether [videoRef.current] is set,
    [canvas] holds the width and height of [canvasRef.current], [scheduled]
    whether an animation frame is pending ([animationRef.current]). *)
Record State : Type := mkState {
  video : bool;
  canvas : option (Z * Z);
  prevFrame : option ImageData;
  isRunning : bool;
  scheduled : bool
}.

(** The accumulators of the scan. *)
Record Motion : Type := mkMotion {
  motionX : Z;
  motionY : Z;
  motionCount : Z
}.

Definition threshold : Z := 25.
Definition step : Z := 4.

(** [frame.data[i]]; out of range it is [undefined], here [None]. *)
Definition channel (frame : ImageData) (i : Z) : option Z :=
  if i <? 0 then None else nth_error (data frame) (Z.to_nat i).

(** [Math.abs(a - b)]; [None] is the NaN that an [undefined] operand gives. *)
Definition absDiff (a b : option Z) : option Z :=
  match a, b with
  | Some a', Some b' => Some (Z.abs (a' - b'))
  | _, _ => None
  end.

(** [(rDiff + gDiff + bDiff) / 3]. *)
Definition mean3 (r g b : option Z) : option Q :=
  match r, g, b with
  | Some r', Some g', Some b' => Some (inject_Z (r' + g' + b') / inject_Z 3)%Q
  | _, _, _ => None
  end.

(** [diff > threshold]; a comparison with NaN is false. *)
Definition exceeds (diff : option Q) (t : Z) : bool :=
  match diff with
  | Some d => negb (Qle_bool d (inject_Z t))
  | None => false
  end.

(** Lines 65-73: the test made at pixel [(x, y)]. *)
Definition isMotionPixel (currentFrame prevFrame : ImageData) (width y x : Z)
  : bool :=
  let i := (y * width + x) * 4 in
  let rDiff := absDiff (channel currentFrame i) (channel prevFrame i) in
  let gDiff := absDiff (channel currentFrame (i + 1)) (channel prevFrame (i + 1)) in
  let bDiff := absDiff (channel currentFrame (i + 2)) (channel prevFrame (i + 2)) in
  let diff := mean3 rDiff gDiff bDiff in
  exceeds diff threshold.

(** Lines 65-77: the body of the inner loop. *)
Definition samplePixel (currentFrame prevFrame : ImageData) (width : Z)
    (m : Motion) (y x : Z) : Motion :=
  if isMotionPixel currentFrame prevFrame width y x
  then mkMotion (motionX m + (width - x)) (motionY m + y) (motionCount m + 1)
  else m.

(** The values of a loop variable in [for (v = from; v < bound; v += step)];
    [fuel] bounds the number of iterations. *)
Fixpoint stepsFrom (fuel : nat) (from bound : Z) : list Z :=
  match fuel with
  | O => []
  | S fuel' =>
      if from <? bound then from :: stepsFrom fuel' (from + step) bound else []
  end.

Definition steps (bound : Z) : list Z := stepsFrom (Z.to_nat bound) 0 bound.

(** Lines 63-79: the two nested loops. *)
Definition scanRow (currentFrame prevFrame : ImageData) (width : Z)
    (m : Motion) (y : Z) : Motion :=
  fold_left (fun m' x => samplePixel currentFrame prevFrame width m' y x)
    (steps width) m.

Definition scan (currentFrame prevFrame : ImageData) (width height : Z) : Motion :=
  fold_left (scanRow currentFrame prevFrame width) (steps height)
    (mkMotion 0 0 0).

(** Lines 81-92: the argument passed to the callback. *)
Definition estimate (e : Env) (width height : Z) (m : Motion) : option HandData :=
  if 30 <? motionCount m then
    let scaleX := (inject_Z (videoWidth e) / inject_Z width)%Q in
    let scaleY := (inject_Z (videoHeight e) / inject_Z height)%Q in
    Some (mkHandData
            ((inject_Z (motionX m) / inject_Z (motionCount m)) * scaleX)%Q
            ((inject_Z (motionY m) / inject_Z (motionCount m)) * scaleY)%Q
            (150 <? motionCount m))
  else None.

Definition set_prevFrame (st : State) (f : option ImageData) : State :=
  mkState (video st) (canvas st) f (isRunning st) (scheduled st).

Definition set_scheduled (st : State) (b : bool) : State :=
  mkState (video st) (canvas st) (prevFrame st) (isRunning st) b.

Section Hook.

(** The callback [onHandUpdateRef.current], acting on the state [World] of
    whoever passed it; it is taken not to throw. *)
Variable World : Type.
Variable onHandUpdate : option HandData -> World -> World.

(** One call of [processFrame], as scheduled by [requestAnimationFrame]. *)
Definition processFrame (e : Env) (sw : State * World) : State * World :=
  let (st, w) := sw in
  if negb (isRunning st) then (set_scheduled st false, w)
  else
    match canvas st with
    | Some (width, height) =>
        if negb (video st) || paused e || ended e || (readyState e <? 2)
        then (set_scheduled st true, w)
        else if negb (hasContext e) then (set_scheduled st true, w)
        else
          match capture e with
          | None => (set_scheduled st true, w)
          | Some currentFrame =>
              let w' :=
                match prevFrame st with
                | Some prev =>
                    onHandUpdate
                      (estimate e width height (scan currentFrame prev width height)) w
                | None => w
                end in
              (set_scheduled (set_prevFrame st (Some currentFrame)) true, w')
          end
    | None => (set_scheduled st true, w)
    end.

End Hook.

(** [initialize] when the camera stream became ready (lines 146-157). *)
Definition initialized (st : State) : State :=
  if isRunning st then st
  else mkState true (Some (160, 120)) (prevFrame st) true true.

(** [stop], for what it does to the refs. *)
Definition stop (st : State) : State :=
  mkState false None None false false.

End HandTracking.

(** ** The glue of [FluidSimulation] between the two hooks *)

Module FluidSimulation.
Local Open Scope R_scope.

(** [handleHandUpdate]: the estimate, in video coordinates, is scaled to the
    canvas ([canvas] holds its width and height, [None] when
    [canvasRef.current] is null) and put in the hand-position slot. *)
Definition handleHandUpdate (canvas : option (R * R))
    (hand : option HandTracking.HandData)
    (st : ParticleSystem.Store) : ParticleSystem.Store :=
  match hand, canvas with
  | Some h, Some (width, height) =>
      let scaleX := width / 320 in
      let scaleY := height / 240 in
      ParticleSystem.setHandPosition
        (Some (ParticleSystem.mkHand
                 (Q2R (HandTracking.x h) * scaleX)
                 (Q2R (HandTracking.y h) * scaleY)
                 (HandTracking.isOpen h)))
        st
  | _, _ => ParticleSystem.setHandPosition None st
  end.

End FluidSimulation.

(** ** The rest of the particle hook: the particle pass of [renderParticles]
    and the animation loop *)

Module Render.
Local Open Scope R_scope.
Import ParticleSystem.

(** Line 164: the breathing fade over the life of a particle. *)
Definition lifeRatio (p : Particle) : R :=
  sin (life p / maxLife p * PI).

(** Lines 169 and 175: the radius of the glow. *)
Definition glowRadius (p : Particle) : R := radius p * 3.

(** Line 184: the value given to [ctx.globalAlpha] before the core of the
    particle is filled. *)
Definition coreAlpha (p : Particle) : R := alpha p * lifeRatio p.

(** The values given to [ctx.globalAlpha] in a list of canvas calls. *)
Fixpoint alphas (ops : list CanvasOp) : list R :=
  match ops with
  | [] => []
  | GlobalAlpha a :: rest => a :: alphas rest
  | _ :: rest => alphas rest
  end.

End Render.

Module SimulationLoop.
Import ParticleSystem.

(** What the loop reads of [canvasRef.current]: its [width] and [height]
    attributes, unsigned integers, and whether [getContext('2d')] gives a
    context. *)
Record Canvas : Type := mkCanvas {
  width : N;
  height : N;
  context : bool
}.

(** The refs of the hook together with the browser's list of animation
    frame callbacks: [animationFrame] is [animationFrameRef.current],
    [pending] the handles of the callbacks requested and neither run nor
    cancelled, [nextHandle] the handle the next request returns (handles
    are positive and never reused). *)
Record Loop : Type := mkLoop {
  store : Store;
  canvas : option Canvas;
  animationFrame : nat;
  pending : list nat;
  nextHandle : nat
}.

Definition set_store (l : Loop) (st : Store) : Loop :=
  mkLoop st (canvas l) (animationFrame l) (pending l) (nextHandle l).

Definition set_canvas (l : Loop) (c : option Canvas) : Loop :=
  mkLoop (store l) c (animationFrame l) (pending l) (nextHandle l).

(** [canvas.width] and [canvas.height] as numbers. *)
Definition widthOf (c : Canvas) : R := IZR (Z.of_N (width c)).
Definition heightOf (c : Canvas) : R := IZR (Z.of_N (height c)).

(** [animationFrameRef.current = requestAnimationFrame(animate)]. *)
Definition requestAnimationFrame (l : Loop) : Loop :=
  mkLoop (store l) (canvas l) (nextHandle l) (nextHandle l :: pending l)
    (S (nextHandle l)).

(** [cancelAnimationFrame(id)]; a handle that is not pending is ignored. *)
Definition cancelAnimationFrame (id : nat) (l : Loop) : Loop :=
  mkLoop (store l) (canvas l) (animationFrame l)
    (remove Nat.eq_dec id (pending l)) (nextHandle l).

(** The hook as mounted: no particle, no pointer, nothing requested. *)
Definition mounted (c : option Canvas) : Loop :=
  mkLoop (mkStore [] None 0) c 0 [] 1.

Section Hook.

Variable random : nat -> R.
Variable particleCount : nat.
Variable interactionRadius : R.
Variable interactionStrength : R.

(** Lines 214-227; [renderParticles] draws and leaves the refs alone. *)
Definition animate (l : Loop) : Loop :=
  match canvas l with
  | None => l
  | Some c =>
      if context c then
        requestAnimationFrame
          (set_store l
             (updateParticles random interactionRadius interactionStrength
                (widthOf c) (heightOf c) (store l)))
      else l
  end.

(** Lines 233-239. *)
Definition start (l : Loop) : Loop :=
  match canvas l with
  | None => l
  | Some c =>
      animate
        (set_store l
           (initParticles random particleCount (widthOf c) (heightOf c) (store l)))
  end.

(** Lines 241-245; the ref keeps the handle. *)
Definition stop (l : Loop) : Loop :=
  if Nat.eqb (animationFrame l) 0 then l
  else cancelAnimationFrame (animationFrame l) l.

(** Lines 257-262. *)
Definition reinitialize (l : Loop) : Loop :=
  match canvas l with
  | Some c =>
      set_store l
        (initParticles random particleCount (widthOf c) (heightOf c) (store l))
  | None => l
  end.

(** Lines 229-231. *)
Definition setHandPosition (position : option HandPosition) (l : Loop) : Loop :=
  set_store l (ParticleSystem.setHandPosition position (store l)).

(** [handleResize] of [FluidSimulation]: the canvas takes the client size
    of its container ([None]: [containerRef.current] is null) and the
    particles are drawn afresh. *)
Definition handleResize (container : option (N * N)) (l : Loop) : Loop :=
  match canvas l, container with
  | Some c, Some (w, h) =>
      reinitialize (set_canvas l (Some (mkCanvas w h (context c))))
  | _, _ => l
  end.

(** The browser runs the callback of handle [id], if it is pending. *)
Definition fire (id : nat) (l : Loop) : Loop :=
  if existsb (Nat.eqb id) (pending l)
  then animate (cancelAnimationFrame id l)
  else l.

(** The calls that reach the hook, and a sequence of them. *)
Inductive Event : Type :=
| Start
| Stop
| Fire (id : nat)
| SetHandPosition (position : option HandPosition)
| Reinitialize
| Resize (container : option (N * N)).

Definition step (l : Loop) (ev : Event) : Loop :=
  match ev with
  | Start => start l
  | Stop => stop l
  | Fire id => fire id l
  | SetHandPosition position => setHandPosition position l
  | Reinitialize => reinitialize l
  | Resize container => handleResize container l
  end.

Definition run (evs : list Event) (l : Loop) : Loop := fold_left step evs l.

End Hook.

End SimulationLoop.

(** ** The rest of the estimator hook: [initialize] and [stop] with the
    camera *)

Module Camera.
Import HandTracking.
Local Open Scope string_scope.

(** The refs of [HandTracking.State] together with [streamRef] ([stream]
    tells whether it holds a stream whose tracks have not been stopped) and
    the three React states of the hook. *)
Record Hook : Type := mkHook {
  refs : State;
  stream : bool;
  isLoading : bool;
  error : option string;
  isActive : bool
}.

(** [message.includes(part)]. *)
Definition includes (message part : string) : bool :=
  match String.index 0 part message with
  | Some _ => true
  | None => false
  end.

(** Lines 160-168: the text shown for an error caught by [initialize];
    [None] is a thrown value that is not an [Error]. *)
Definition report (err : option string) : string :=
  let message := match err with Some m => m | None => "Unknown error" end in
  if includes message "Permission" || includes message "NotAllowed"
  then "Camera permission denied"
  else if includes message "NotFound"
          || includes message "Requested device not found"
  then "No camera found"
  else "Camera error: " ++ message.

(** [initialize] runs in three stretches, separated by its two [await]s.
    Lines 104-124, up to the request for the camera; the boolean tells
    whether the call goes on (it returns at once when the estimator is
    running). *)
Definition initializeBegin (hk : Hook) : Hook * bool :=
  if isRunning (refs hk) then (hk, false)
  else
    (mkHook
       (mkState true (canvas (refs hk)) (prevFrame (refs hk))
          (isRunning (refs hk)) (scheduled (refs hk)))
       (stream hk) true None (isActive hk),
     true).

(** Lines 126-127, when [getUserMedia] has given a stream. *)
Definition initializeStream (hk : Hook) : Hook :=
  mkHook (refs hk) true (isLoading hk) (error hk) (isActive hk).

(** Lines 146-157, when the video has data and plays. *)
Definition initializeReady (hk : Hook) : Hook :=
  mkHook
    (mkState (video (refs hk)) (Some (160, 120)%Z) (prevFrame (refs hk)) true true)
    (stream hk) false (error hk) true.

(** Lines 158-171, when one of the two [await]s threw [err]. *)
Definition initializeFailed (err : option string) (hk : Hook) : Hook :=
  mkHook (refs hk) (stream hk) false (Some (report err)) false.

(** How the camera answers a call of [initialize]. *)
Inductive Outcome : Type :=
| StreamRefused (err : option string)
| VideoFailed (err : option string)
| CameraReady.

(** A call of [initialize] that nothing interrupts. *)
Definition initialize (o : Outcome) (hk : Hook) : Hook :=
  let (hk1, goes_on) := initializeBegin hk in
  if goes_on then
    match o with
    | StreamRefused err => initializeFailed err hk1
    | VideoFailed err => initializeFailed err (initializeStream hk1)
    | CameraReady => initializeReady (initializeStream hk1)
    end
  else hk1.

(** Lines 174-195: [stop] on the whole hook. *)
Definition stop (hk : Hook) : Hook :=
  mkHook (HandTracking.stop (refs hk)) false (isLoading hk) (error hk) false.

(** The hook as mounted. *)
Definition mounted : Hook :=
  mkHook (mkState false None None false false) false false None false.

End Camera.

(** ** The landmark-based variant of the estimator hook *)

Module LandmarkTracking.
Local Open Scope R_scope.

(** A landmark of the hand model, in normalized image coordinates. *)
Record Landmark : Type := mkLandmark {
  x : R;
  y : R;
  z : R
}.

(** [interface HandData] of this variant. *)
Record HandData : Type := mkHandData {
  hand_x : R;
  hand_y : R;
  isOpen : bool;
  landmarks : list (R * R)
}.

Definition fingerTips : list nat := [8; 12; 16; 20]%nat.
Definition fingerBases : list nat := [5; 9; 13; 17]%nat.

(** The loop of [calculateHandOpenness] over the pairs of a tip and a base
    index; reading a field of a landmark that is not there throws, which
    is [None]. *)
Fixpoint countExtended (lms : list Landmark) (pairs : list (nat * nat))
    (extendedFingers : nat) : option nat :=
  match pairs with
  | [] => Some extendedFingers
  | (tipIndex, baseIndex) :: rest =>
      match nth_error lms tipIndex, nth_error lms baseIndex with
      | Some tip, Some base =>
          countExtended lms rest
            (if Num.ltb (y tip) (y base)
             then S extendedFingers else extendedFingers)
      | _, _ => None
      end
  end.

(** [calculateHandOpenness].  The coordinates are read as reals: the four
    finger tests compare two coordinates, which is exact on numbers; the
    thumb test compares the real difference of two coordinates with 0.05,
    where the source compares the rounded difference. *)
Definition calculateHandOpenness (lms : list Landmark) : option bool :=
  match countExtended lms (combine fingerTips fingerBases) 0 with
  | None => None
  | Some fingers =>
      match nth_error lms 4, nth_error lms 2 with
      | Some thumbTip, Some thumbBase =>
          let extendedFingers :=
            if Num.ltb 0.05 (Rabs (x thumbTip - x thumbBase))
            then S fingers else fingers in
          Some (3 <=? extendedFingers)%nat
      | _, _ => None
      end
  end.

(** What a call of [onResults] does with the callback. *)
Inductive Outcome : Type :=
| Threw
| NotCalled
| Called (hand : option HandData).

(** [onResults]: [hands] is [results.multiHandLandmarks] ([None] when it is
    missing), [video] the size of [videoRef.current] ([None] when it is
    null). *)
Definition onResults (hands : option (list (list Landmark)))
    (video : option (R * R)) : Outcome :=
  match hands with
  | Some (lms :: _) =>
      match video with
      | None => NotCalled
      | Some (videoWidth, videoHeight) =>
          match nth_error lms 0, nth_error lms 9 with
          | Some wrist, Some middleMcp =>
              match calculateHandOpenness lms with
              | Some open =>
                  Called
                    (Some (mkHandData
                             ((1 - (x wrist + x middleMcp) / 2) * videoWidth)
                             ((y wrist + y middleMcp) / 2 * videoHeight)
                             open
                             (map (fun lm => ((1 - x lm) * videoWidth,
                                              y lm * videoHeight)) lms)))
              | None => Threw
              end
          | _, _ => Threw
          end
      end
  | _ => Called None
  end.

(** A hand held up: the four finger tips above their bases, the thumb
    tip straight above the thumb base. *)
Definition raisedHand : list Landmark :=
  map (fun i : nat =>
         mkLandmark 0.5 (if existsb (Nat.eqb i) fingerTips then 0.2 else 0.6) 0)
      (seq 0 21).

End LandmarkTracking.

(** ** Lines 50 and 51 of [initParticles] in binary64 *)

Module Binary64.
Local Open Scope Z_scope.

(** IEEE 754 binary64, rounding to nearest, ties to even, as the Standard
    Library specifies it. *)
Definition prec : Z := 53.
Definition emax : Z := 1024.

Definition number : Type := SpecFloat.spec_float.

(** An integer literal. *)
Definition of_Z (z : Z) : number := SpecFloat.binary_normalize prec emax z 0 false.

Definition add : number -> number -> number := SpecFloat.SFadd prec emax.
Definition mul : number -> number -> number := SpecFloat.SFmul prec emax.
Definition ltb : number -> number -> bool := SpecFloat.SFltb.
Definition leb : number -> number -> bool := SpecFloat.SFleb.

(** The largest number below 1, 1 - 2^-53: the largest value that
    [Math.random()] may return. *)
Definition below_one : number := SpecFloat.SFpred prec emax (of_Z 1).

(** Line 50: [Math.random() * 100]. *)
Definition life (random : number) : number := mul random (of_Z 100).

(** Line 51: [100 + Math.random() * 100]. *)
Definition maxLife (random : number) : number :=
  add (of_Z 100) (mul random (of_Z 100)).

End Binary64.

(** ** Two frames of the 160x120 analysis surface *)

Module Frames.
Local Open Scope Z_scope.

(** A black frame and a grey one, every byte 0 and every byte 200, of the
    size that [getImageData(0, 0, 160, 120)] returns: 160 * 120 * 4 bytes
    (the scan reads the three color bytes of a pixel only). *)
Definition black : HandTracking.ImageData :=
  HandTracking.mkImageData (repeat 0 (Z.to_nat (160 * 120 * 4))).

Definition grey : HandTracking.ImageData :=
  HandTracking.mkImageData (repeat 200 (Z.to_nat (160 * 120 * 4))).

End Frames.

(** * Properties *)

(** ** Comparisons and [atan2] *)

Section NumFacts.
Local Open Scope R_scope.
Import Num.

Lemma ltb_true (a b : R) : ltb a b = true <-> a < b.
Proof. unfold ltb; destruct (Rlt_dec a b); split; intros; try easy; lra. Qed.

Lemma ltb_false (a b : R) : ltb a b = false <-> b <= a.
Proof. unfold ltb; destruct (Rlt_dec a b); split; intros; try easy; lra. Qed.

Lemma sqrt_lt_iff (a b : R) : 0 <= a -> 0 < b -> (sqrt a < b <-> a < b * b).
Proof.
  intros Ha Hb; split; intro H.
  - rewrite <- (sqrt_sqrt a Ha). pose proof (sqrt_pos a). nra.
  - rewrite <- (sqrt_square b) by lra. apply sqrt_lt_1_alt. lra.
Qed.

Lemma sumsq_nonneg (a b : R) : 0 <= a * a + b * b.
Proof. nra. Qed.

(** The hypotenuse over a leg: [sqrt (1 + (b/a)²)] is [sqrt (a² + b²) / |a|]. *)
Lemma sqrt_slope (a b c : R) :
  0 < c -> c * c = a * a ->
  sqrt (1 + (b / a)²) = sqrt (a * a + b * b) / c.
Proof.
  intros Hc Hca.
  assert (Ha : a <> 0) by (intro; subst; nra).
  pose proof (sumsq_nonneg a b) as Hs.
  pose proof (sqrt_pos (a * a + b * b)) as Hp.
  apply sqrt_lem_1.
  - unfold Rsqr. pose proof (sumsq_nonneg 1 (b / a)). lra.
  - apply Rmult_le_pos; [exact Hp | left; apply Rinv_0_lt_compat; exact Hc].
  - unfold Rsqr.
    transitivity ((sqrt (a * a + b * b) * sqrt (a * a + b * b)) / (c * c)).
    + field; lra.
    + rewrite sqrt_sqrt by exact Hs. rewrite Hca. field; exact Ha.
Qed.

Lemma cos_shift_PI (t : R) : cos (t - PI) = - cos t.
Proof. rewrite cos_minus, cos_PI, sin_PI; ring. Qed.

Lemma sin_shift_PI (t : R) : sin (t - PI) = - sin t.
Proof. rewrite sin_minus, cos_PI, sin_PI; ring. Qed.

(** [atan2 y x] is the angle of the vector [(x, y)]. *)
Lemma cos_sin_atan2 (y x : R) :
  0 < sqrt (x * x + y * y) ->
  cos (atan2 y x) = x / sqrt (x * x + y * y) /\
  sin (atan2 y x) = y / sqrt (x * x + y * y).
Proof.
  intros Hd. set (d := sqrt (x * x + y * y)) in *.
  assert (Hdd : d * d = x * x + y * y)
    by (apply sqrt_sqrt, sumsq_nonneg).
  assert (Hd' : sqrt (x * x + y * y) = d) by reflexivity.
  clearbody d. unfold atan2.
  destruct (Rlt_dec 0 x) as [Hx | Hx].
  - rewrite cos_atan, sin_atan, (sqrt_slope x y x), Hd' by lra.
    split; field; lra.
  - destruct (Rlt_dec x 0) as [Hx' | Hx'].
    + assert (Hs : sqrt (1 + (y / x)²) = d / (- x))
        by (rewrite <- Hd'; apply sqrt_slope; [lra | ring]).
      destruct (Rle_dec 0 y).
      * rewrite neg_cos, neg_sin, cos_atan, sin_atan, Hs. split; field; lra.
      * rewrite cos_shift_PI, sin_shift_PI, cos_atan, sin_atan, Hs.
        split; field; lra.
    + assert (x = 0) by lra. subst x.
      assert (Hy : d * d = y * y) by lra.
      destruct (Rlt_dec 0 y).
      * rewrite cos_PI2, sin_PI2. assert (Hdy : d = y) by nra.
        rewrite Hdy. split; field; lra.
      * destruct (Rlt_dec y 0).
        -- rewrite cos_neg, sin_neg, cos_PI2, sin_PI2.
           assert (Hdy : d = - y) by nra.
           rewrite Hdy. split; field; lra.
        -- assert (y = 0) by lra. subst y. nra.
Qed.

End NumFacts.

(** ** The hand interaction of [updateParticles] *)

Section PointerForceFacts.
Local Open Scope R_scope.
Import Num ParticleSystem.

Variables interactionRadius interactionStrength : R.

Local Abbreviation pointerForce := (pointerForce interactionRadius interactionStrength).
Local Abbreviation pointerDelta := (pointerDelta interactionRadius interactionStrength).

(** Inside the interaction radius and off the pointer, the velocity change
    is the unit vector from the pointer to the particle, scaled by the
    linear falloff, the strength and the sign of the gesture. *)
Lemma pointerDelta_in_range (h : HandPosition) (p : Particle) :
  let dx := px p - hx h in
  let dy := py p - hy h in
  let d := sqrt (dx * dx + dy * dy) in
  0 < d < interactionRadius ->
  pointerDelta h p =
    (dx / d * ((interactionRadius - d) / interactionRadius) * interactionStrength
       * (if isOpen h then 1 else -1),
     dy / d * ((interactionRadius - d) / interactionRadius) * interactionStrength
       * (if isOpen h then 1 else -1)).
Proof.
  intros dx dy d [Hd0 HdR].
  unfold ParticleSystem.pointerDelta, ParticleSystem.pointerForce.
  fold dx dy d.
  replace (ltb d interactionRadius) with true by (symmetry; apply ltb_true; exact HdR).
  replace (ltb 0 d) with true by (symmetry; apply ltb_true; exact Hd0).
  cbn [andb set_vel vx vy].
  destruct (cos_sin_atan2 dy dx Hd0) as [Hc Hs]. fold d in Hc, Hs.
  rewrite Hc, Hs. f_equal; ring.
Qed.

(** Outside the radius, on the pointer, or without a pointer, the particle
    is left as it is. *)
Lemma pointerForce_out_of_range (h : HandPosition) (p : Particle) :
  let dx := px p - hx h in
  let dy := py p - hy h in
  let d := sqrt (dx * dx + dy * dy) in
  interactionRadius <= d \/ d <= 0 ->
  pointerForce (Some h) p = p.
Proof.
  intros dx dy d H. unfold ParticleSystem.pointerForce. fold dx dy d.
  destruct H as [H | H].
  - replace (ltb d interactionRadius) with false
      by (symmetry; apply ltb_false; exact H).
    reflexivity.
  - replace (ltb 0 d) with false by (symmetry; apply ltb_false; exact H).
    rewrite andb_false_r. reflexivity.
Qed.

End PointerForceFacts.

Section ReferenceScenario.
Local Open Scope R_scope.
Import Num ParticleSystem.

Lemma scenario_distance :
  sqrt ((250 - 200) * (250 - 200) + (200 - 200) * (200 - 200)) = 50.
Proof. apply sqrt_lem_1; lra. Qed.

(** C1, as the code has it: in the reference scenario (radius 150, strength
    0.5, closed pointer at (200,200), particle at (250,200)) the hand
    interaction changes the x-velocity by
    cos(0) * ((150-50)/150) * 0.5 * (-1) = -1/3, towards the pointer, and
    leaves the y-velocity as it is. *)
Theorem scenario_delta (v w r : R) (c : option string) (a l m : R) :
  pointerDelta 150 0.5 (mkHand 200 200 false) (mkParticle 250 200 v w r c a l m)
  = (cos 0 * ((150 - 50) / 150) * 0.5 * (-1), 0)
  /\ cos 0 * ((150 - 50) / 150) * 0.5 * (-1) = - (1 / 3).
Proof.
  split; [| rewrite cos_0; lra].
  rewrite pointerDelta_in_range;
    cbn [px py hx hy isOpen]; rewrite scenario_distance;
    [| lra].
  rewrite cos_0. f_equal; lra.
Qed.

(** C1, as the claim has it: the change of the x-velocity is not +1/3,
    the value of cos(pi) * ((150-50)/150) * 0.5 * (-1). *)
Lemma scenario_delta_not_positive :
  cos PI * ((150 - 50) / 150) * 0.5 * (-1) = 1 / 3 /\
  fst (pointerDelta 150 0.5 (mkHand 200 200 false)
         (mkParticle 250 200 0 0 1 None 1 0 100)) <> 1 / 3.
Proof.
  split; [rewrite cos_PI; lra |].
  rewrite pointerDelta_in_range;
    cbn [px py hx hy isOpen fst]; rewrite scenario_distance; lra.
Qed.

End ReferenceScenario.

Section PointerForceClaims.
Local Open Scope R_scope.
Import Num ParticleSystem.

(** C6, as the code has it: for a particle at distance d from the pointer
    with 0 < d < interactionRadius, and a positive interactionStrength, the
    velocity change of the hand interaction has a positive inner product
    with particlePos - pointerPos when the hand is open, a negative one when
    it is closed, and its length is
    ((interactionRadius - d) / interactionRadius) * interactionStrength. *)
Theorem pointer_force_direction
    (interactionRadius interactionStrength : R) (h : HandPosition) (p : Particle) :
  let dx := px p - hx h in
  let dy := py p - hy h in
  let d := sqrt (dx * dx + dy * dy) in
  let delta := pointerDelta interactionRadius interactionStrength h p in
  0 < d < interactionRadius ->
  0 < interactionStrength ->
  (isOpen h = true -> 0 < fst delta * dx + snd delta * dy) /\
  (isOpen h = false -> fst delta * dx + snd delta * dy < 0) /\
  sqrt (fst delta * fst delta + snd delta * snd delta)
    = (interactionRadius - d) / interactionRadius * interactionStrength.
Proof.
  intros dx dy d delta Hd Hs.
  pose proof (pointerDelta_in_range interactionRadius interactionStrength h p Hd)
    as E.
  fold dx dy d delta in E. rewrite E. cbn [fst snd].
  assert (Hdd : d * d = dx * dx + dy * dy) by (apply sqrt_sqrt, sumsq_nonneg).
  assert (HF : 0 < (interactionRadius - d) / interactionRadius)
    by (apply Rdiv_lt_0_compat; lra).
  set (F := (interactionRadius - d) / interactionRadius) in *.
  assert (Hin : forall s : R,
             dx / d * F * interactionStrength * s * dx
             + dy / d * F * interactionStrength * s * dy
             = d * (F * interactionStrength) * s).
  { intro s.
    transitivity ((dx * dx + dy * dy) / d * (F * interactionStrength) * s).
    - field; lra.
    - rewrite <- Hdd. field; lra. }
  assert (HFs : 0 < F * interactionStrength) by (apply Rmult_lt_0_compat; lra).
  split; [| split].
  - intros ->. rewrite Hin. nra.
  - intros ->. rewrite Hin. nra.
  - apply sqrt_lem_1; [apply sumsq_nonneg | lra |].
    set (s := if isOpen h then 1 else -1).
    assert (Hs2 : s * s = 1) by (unfold s; destruct (isOpen h); lra).
    transitivity ((dx * dx + dy * dy) / (d * d)
                  * (F * interactionStrength * (F * interactionStrength))
                  * (s * s)).
    + rewrite <- Hdd, Hs2. field; lra.
    + field; lra.
Qed.

(** The theorem at the reference scenario with an open hand. *)
Lemma pointer_force_direction_witness :
  let h := mkHand 200 200 true in
  let p := mkParticle 250 200 0 0 1 None 1 0 100 in
  let delta := pointerDelta 150 0.5 h p in
  (isOpen h = true -> 0 < fst delta * (250 - 200) + snd delta * (200 - 200)) /\
  (isOpen h = false -> fst delta * (250 - 200) + snd delta * (200 - 200) < 0) /\
  sqrt (fst delta * fst delta + snd delta * snd delta)
    = (150 - sqrt ((250 - 200) * (250 - 200) + (200 - 200) * (200 - 200))) / 150 * 0.5.
Proof.
  apply (pointer_force_direction 150 0.5 (mkHand 200 200 true)
           (mkParticle 250 200 0 0 1 None 1 0 100)).
  - cbn [px py hx hy]. rewrite scenario_distance. lra.
  - lra.
Defined.

(** C6, as the claim has it, fails when interactionStrength is 0: the
    particle is inside the radius and off the pointer, the hand is open, and
    the velocity change is the zero vector, whose inner product with
    particlePos - pointerPos is not positive. *)
Lemma pointer_force_zero_strength :
  let h := mkHand 200 200 true in
  let p := mkParticle 250 200 0 0 1 None 1 0 100 in
  let dx := px p - hx h in
  let dy := py p - hy h in
  let delta := pointerDelta 150 0 h p in
  0 < sqrt (dx * dx + dy * dy) < 150 /\
  isOpen h = true /\
  delta = (0, 0) /\
  ~ (0 < fst delta * dx + snd delta * dy).
Proof.
  cbn zeta. cbn [px py hx hy isOpen].
  rewrite pointerDelta_in_range;
    cbn [px py hx hy isOpen fst snd]; rewrite scenario_distance; [| lra].
  repeat split; try lra.
  f_equal; lra.
Qed.

(** C7: a particle whose position is exactly the pointer's is left as it is
    by the hand interaction (no velocity or position component is written,
    and nothing is divided by the distance), so that its tick is the tick
    it would have without a pointer. *)
Theorem pointer_force_zero_distance
    (interactionRadius interactionStrength : R) (h : HandPosition) (p : Particle) :
  px p = hx h -> py p = hy h ->
  pointerForce interactionRadius interactionStrength (Some h) p = p /\
  pointerDelta interactionRadius interactionStrength h p = (0, 0) /\
  forall (width height : R) (ps : list Particle) (i : nat),
    move interactionRadius interactionStrength width height (Some h) ps i p
    = move interactionRadius interactionStrength width height None ps i p.
Proof.
  intros Hx Hy.
  assert (E : pointerForce interactionRadius interactionStrength (Some h) p = p).
  { apply pointerForce_out_of_range. right.
    rewrite Hx, Hy.
    replace ((hx h - hx h) * (hx h - hx h) + (hy h - hy h) * (hy h - hy h))
      with 0 by ring.
    rewrite sqrt_0. lra. }
  split; [exact E | split].
  - unfold pointerDelta. rewrite E. f_equal; ring.
  - intros. unfold move. rewrite E. reflexivity.
Qed.

(** The theorem at a particle sitting on the pointer (200,200). *)
Lemma pointer_force_zero_distance_witness :
  let h := mkHand 200 200 false in
  let p := mkParticle 200 200 1 (-1) 2 None 1 0 100 in
  pointerForce 150 0.5 (Some h) p = p /\
  pointerDelta 150 0.5 h p = (0, 0) /\
  forall (width height : R) (ps : list Particle) (i : nat),
    move 150 0.5 width height (Some h) ps i p
    = move 150 0.5 width height None ps i p.
Proof.
  apply (pointer_force_zero_distance 150 0.5 (mkHand 200 200 false)
           (mkParticle 200 200 1 (-1) 2 None 1 0 100)); reflexivity.
Defined.

End PointerForceClaims.

(** ** The array of particles under in-place update *)

Section StoreFacts.
Import ParticleSystem.

Lemma store_at_length (i : nat) (q : Particle) (ps : list Particle) :
  length (store_at i q ps) = length ps.
Proof.
  revert i; induction ps as [| p ps IH]; intros [| i]; cbn; auto.
Qed.

Lemma store_at_same (i : nat) (q : Particle) (ps : list Particle) :
  (i < length ps)%nat -> nth_error (store_at i q ps) i = Some q.
Proof.
  revert i; induction ps as [| p ps IH]; intros [| i] H; cbn in *;
    try lia; auto.
  apply IH; lia.
Qed.

Lemma store_at_other (i j : nat) (q : Particle) (ps : list Particle) :
  i <> j -> nth_error (store_at i q ps) j = nth_error ps j.
Proof.
  revert i j; induction ps as [| p ps IH]; intros [| i] [| j] H; cbn;
    try congruence; auto.
Qed.

Lemma store_at_skipn (i j : nat) (q : Particle) (ps : list Particle) :
  (i < j)%nat -> skipn j (store_at i q ps) = skipn j ps.
Proof.
  revert i j; induction ps as [| p ps IH]; intros [| i] [| j] H; cbn;
    try lia; auto.
  apply IH; lia.
Qed.

(** Two arrays that agree on their first [i] slots have the same prefix. *)
Lemma firstn_agree (i : nat) (a b : list Particle) :
  (i <= length a)%nat -> (i <= length b)%nat ->
  (forall j, (j < i)%nat -> nth_error a j = nth_error b j) ->
  firstn i a = firstn i b.
Proof.
  revert a b; induction i as [| i IH]; intros a b Ha Hb H; [reflexivity |].
  destruct a as [| x a]; destruct b as [| y b]; cbn in *; try lia.
  pose proof (H 0%nat ltac:(lia)) as H0. cbn in H0. injection H0 as ->.
  f_equal. apply IH; try lia.
  intros j Hj. apply (H (S j)). lia.
Qed.

End StoreFacts.

(** ** One tick of [updateParticles] *)

(** Splits on the outcome of a comparison and records it as an inequality. *)
Ltac case_ltb :=
  match goal with
  | |- context [Num.ltb ?a ?b] =>
      let E := fresh "E" in
      destruct (Num.ltb a b) eqn:E;
      [apply ltb_true in E | apply ltb_false in E]
  end.

Section TickFacts.
Local Open Scope R_scope.
Import Num ParticleSystem.

Variable random : nat -> R.
Variables interactionRadius interactionStrength width height : R.

Local Abbreviation move := (move interactionRadius interactionStrength width height).
Local Abbreviation forEachFrom :=
  (forEachFrom random interactionRadius interactionStrength).

(** The boundary tests leave the position inside the canvas. *)
Lemma bounce_in_bounds (p : Particle) :
  0 <= width -> 0 <= height ->
  0 <= px (bounce width height p) <= width /\
  0 <= py (bounce width height p) <= height.
Proof.
  intros Hw Hh. unfold bounce.
  repeat (case_ltb; cbn [px py set_x set_y] in * ); lra.
Qed.

(** The life counter does not touch position or velocity. *)
Lemma lifecycle_kinematics (p : Particle) (k : nat) :
  kinematics (fst (lifecycle random p k)) = kinematics p.
Proof. unfold lifecycle. case_ltb; reflexivity. Qed.

(** What the outer loop has done when it ends: the slots before [i] are
    untouched, and every later slot [j] holds its particle, updated against
    the final contents of the slots before [j] and the initial contents of
    the slots from [j] on. *)
Lemma forEachFrom_spec (n : nat) :
  forall (i : nat) (hand : option HandPosition) (ps : list Particle) (k : nat)
         (res : list Particle) (k' : nat),
  forEachFrom n i width height hand ps k = (res, k') ->
  (i + n = length ps)%nat ->
  length res = length ps /\
  (forall j, (j < i)%nat -> nth_error res j = nth_error ps j) /\
  (forall j p, (i <= j)%nat -> nth_error ps j = Some p ->
     exists kj,
       nth_error res j
       = Some (fst (lifecycle random
                      (move hand (firstn j res ++ skipn j ps) j p) kj))).
Proof.
  induction n as [| n IH]; intros i hand ps k res k' Hrun Hlen.
  - cbn in Hrun. injection Hrun as <- <-.
    split; [reflexivity | split; [reflexivity |]].
    intros j p Hj Hp.
    assert (j < length ps)%nat by (apply nth_error_Some; congruence). lia.
  - cbn [ParticleSystem.forEachFrom] in Hrun.
    destruct (nth_error ps i) as [p0 |] eqn:Hp0;
      [| apply nth_error_None in Hp0; lia].
    assert (Hi : (i < length ps)%nat) by (apply nth_error_Some; congruence).
    destruct (lifecycle random (move hand ps i p0) k) as [q k1] eqn:Hq.
    apply IH in Hrun; [| rewrite store_at_length; lia].
    destruct Hrun as (Hl & Hbefore & Hafter).
    rewrite store_at_length in Hl.
    assert (Hlow : forall j, (j < i)%nat -> nth_error res j = nth_error ps j).
    { intros j Hj. rewrite Hbefore by lia. apply store_at_other. lia. }
    split; [exact Hl | split; [exact Hlow |]].
    intros j p Hj Hp.
    destruct (Nat.eq_dec j i) as [-> | Hne].
    + exists k. rewrite Hbefore by lia.
      rewrite store_at_same by exact Hi.
      rewrite (firstn_agree i res ps) by (try exact Hlow; lia).
      rewrite firstn_skipn.
      assert (p = p0) by congruence. subst p. rewrite Hq. reflexivity.
    + destruct (Hafter j p) as [kj Hkj]; [lia | |].
      * rewrite store_at_other by lia. exact Hp.
      * exists kj. rewrite store_at_skipn in Hkj by lia. exact Hkj.
Qed.

End TickFacts.

(** ** Position and velocity do not depend on the rest of the particle *)

Section KinematicsFacts.
Local Open Scope R_scope.
Import Num ParticleSystem.

Variables interactionRadius interactionStrength width height : R.

Local Abbreviation pointerForce := (pointerForce interactionRadius interactionStrength).
Local Abbreviation move := (move interactionRadius interactionStrength width height).

Lemma cons_eq_inv {A : Type} (a b : A) (l l' : list A) :
  a :: l = b :: l' -> a = b /\ l = l'.
Proof. intro H. injection H. auto. Qed.

Lemma kinematics_inv (a b : Particle) :
  kinematics a = kinematics b ->
  px a = px b /\ py a = py b /\ vx a = vx b /\ vy a = vy b.
Proof. unfold kinematics. intro H. injection H. auto. Qed.

Ltac kin_split H :=
  apply kinematics_inv in H;
  let Hx := fresh "Hx" in let Hy := fresh "Hy" in
  let Hvx := fresh "Hvx" in let Hvy := fresh "Hvy" in
  destruct H as (Hx & Hy & Hvx & Hvy).

Lemma pointerForce_kin (hand : option HandPosition) (p p' : Particle) :
  kinematics p = kinematics p' ->
  kinematics (pointerForce hand p) = kinematics (pointerForce hand p').
Proof.
  intro H. pose proof H as K. kin_split H.
  unfold ParticleSystem.pointerForce. destruct hand as [h |]; [| exact K].
  rewrite Hx, Hy.
  destruct (ltb _ _ && ltb _ _); [| exact K].
  unfold kinematics, set_vel. cbn [px py vx vy]. congruence.
Qed.

Lemma separation_kin (p p' other other' : Particle) :
  kinematics p = kinematics p' -> kinematics other = kinematics other' ->
  kinematics (separation p other) = kinematics (separation p' other').
Proof.
  intros H G. pose proof H as K. kin_split H. kin_split G.
  unfold separation. rewrite Hx, Hy, Hx0, Hy0.
  destruct (ltb _ _ && ltb _ _); [| exact K].
  unfold kinematics, set_vel. cbn [px py vx vy]. congruence.
Qed.

Lemma fluid_kin (i : nat) (others : list Particle) :
  forall (others' : list Particle) (j : nat) (p p' : Particle),
  map kinematics others = map kinematics others' ->
  kinematics p = kinematics p' ->
  kinematics (fluid i j others p) = kinematics (fluid i j others' p').
Proof.
  induction others as [| o others IH]; intros [| o' others'] j p p' Hm Hp;
    cbn [map] in Hm; try discriminate; [exact Hp |].
  apply cons_eq_inv in Hm as [Ho Hm]. cbn [fluid].
  apply IH; [exact Hm |].
  destruct (Nat.eqb i j); [exact Hp | apply separation_kin; assumption].
Qed.

Lemma integrate_kin (p p' : Particle) :
  kinematics p = kinematics p' ->
  kinematics (integrate p) = kinematics (integrate p').
Proof.
  intro H. kin_split H. unfold kinematics, integrate. cbn [px py vx vy].
  congruence.
Qed.

Lemma bounce_kin (p p' : Particle) :
  kinematics p = kinematics p' ->
  kinematics (bounce width height p) = kinematics (bounce width height p').
Proof.
  intro H. kin_split H. destruct p, p'. cbn [px py vx vy] in *. subst.
  unfold bounce, kinematics, set_x, set_y. cbn [px py vx vy].
  repeat match goal with
         | |- context [ltb ?a ?b] =>
             lazymatch a with context [ltb _ _] => fail | _ => idtac end;
             lazymatch b with context [ltb _ _] => fail | _ => idtac end;
             destruct (ltb a b); cbn [px py vx vy]
         end; reflexivity.
Qed.

Lemma move_kin (hand : option HandPosition) (ps ps' : list Particle)
    (i : nat) (p p' : Particle) :
  map kinematics ps = map kinematics ps' ->
  kinematics p = kinematics p' ->
  kinematics (move hand ps i p) = kinematics (move hand ps' i p').
Proof.
  intros Hm Hp. unfold ParticleSystem.move.
  apply bounce_kin, integrate_kin, fluid_kin;
    [exact Hm | apply pointerForce_kin, Hp].
Qed.

Lemma store_at_kin (i : nat) (q q' : Particle) (ps : list Particle) :
  forall ps' : list Particle,
  map kinematics ps = map kinematics ps' ->
  kinematics q = kinematics q' ->
  map kinematics (store_at i q ps) = map kinematics (store_at i q' ps').
Proof.
  revert i; induction ps as [| p ps IH]; intros i [| p' ps'] Hm Hq;
    cbn [map] in Hm; try discriminate; [destruct i; reflexivity |].
  apply cons_eq_inv in Hm as [Hp Hm].
  destruct i as [| i]; cbn [store_at map]; [congruence |].
  f_equal; [exact Hp | apply IH; assumption].
Qed.

Lemma nth_error_kin (ps : list Particle) :
  forall (ps' : list Particle) (i : nat),
  map kinematics ps = map kinematics ps' ->
  match nth_error ps i, nth_error ps' i with
  | Some p, Some p' => kinematics p = kinematics p'
  | None, None => True
  | _, _ => False
  end.
Proof.
  induction ps as [| p ps IH]; intros [| p' ps'] i Hm; cbn [map] in Hm;
    try discriminate.
  - destruct i; exact I.
  - apply cons_eq_inv in Hm as [Hp Hm].
    destruct i as [| i]; cbn [nth_error]; [exact Hp | apply IH, Hm].
Qed.

(** The outer loop, run with two random sources on arrays that agree on
    positions and velocities, ends on arrays that agree on them. *)
Lemma forEachFrom_kin (random random' : nat -> R) (hand : option HandPosition)
    (n : nat) :
  forall (i : nat) (ps ps' : list Particle) (k k' : nat),
  map kinematics ps = map kinematics ps' ->
  map kinematics
    (fst (forEachFrom random interactionRadius interactionStrength
            n i width height hand ps k))
  = map kinematics
      (fst (forEachFrom random' interactionRadius interactionStrength
              n i width height hand ps' k')).
Proof.
  induction n as [| n IH]; intros i ps ps' k k' Hm; [exact Hm |].
  cbn [forEachFrom].
  pose proof (nth_error_kin ps ps' i Hm) as Hi.
  destruct (nth_error ps i) as [p |], (nth_error ps' i) as [p' |];
    try contradiction; [| exact Hm].
  pose proof (move_kin hand ps ps' i p p' Hm Hi) as Hmv.
  pose proof (lifecycle_kinematics random (move hand ps i p) k) as L.
  pose proof (lifecycle_kinematics random' (move hand ps' i p') k') as L'.
  destruct (lifecycle random _ k) as [q k1].
  destruct (lifecycle random' _ k') as [q' k1'].
  cbn [fst] in L, L'.
  apply IH, store_at_kin; [exact Hm | congruence].
Qed.

End KinematicsFacts.

(** ** [updateParticles]: the canvas bound and the order of the update *)

Section UpdateClaims.
Local Open Scope R_scope.
Import Num ParticleSystem.

(** C2: after a tick on a canvas of non-negative width and height, every
    particle the tick received is still in its slot of the array, whose
    length is unchanged, and has 0 <= x <= width and 0 <= y <= height,
    whatever its position and velocity were before the tick. *)
Theorem updateParticles_in_bounds
    (random : nat -> R) (interactionRadius interactionStrength width height : R)
    (st : Store) :
  0 <= width -> 0 <= height ->
  let st' := updateParticles random interactionRadius interactionStrength
               width height st in
  length (particles st') = length (particles st) /\
  (forall (j : nat) (p : Particle),
     nth_error (particles st) j = Some p ->
     exists q,
       nth_error (particles st') j = Some q /\
       0 <= px q <= width /\ 0 <= py q <= height) /\
  Forall (fun p => 0 <= px p <= width /\ 0 <= py p <= height) (particles st').
Proof.
  intros Hw Hh. cbn zeta. unfold updateParticles.
  destruct (forEachFrom _ _ _ _ _ _ _ _ _ _) as [res k'] eqn:Hrun.
  cbn [particles].
  apply forEachFrom_spec in Hrun; [| reflexivity].
  destruct Hrun as (Hl & _ & Hafter).
  assert (Hslot : forall (j : nat) (p : Particle),
            nth_error (particles st) j = Some p ->
            exists q,
              nth_error res j = Some q /\
              0 <= px q <= width /\ 0 <= py q <= height).
  { intros j p Hp.
    destruct (Hafter j p ltac:(lia) Hp) as [kj Hkj].
    eexists. split; [exact Hkj |].
    pose proof (lifecycle_kinematics random
                  (move interactionRadius interactionStrength width height
                     (handPosition st)
                     (firstn j res ++ skipn j (particles st)) j p) kj) as K.
    apply kinematics_inv in K as (Kx & Ky & _ & _). rewrite Kx, Ky.
    apply bounce_in_bounds; assumption. }
  split; [exact Hl | split; [exact Hslot |]].
  apply Forall_forall. intros q Hq.
  apply In_nth_error in Hq as [j Hj].
  assert (Hjl : (j < length (particles st))%nat)
    by (rewrite <- Hl; apply nth_error_Some; congruence).
  destruct (nth_error (particles st) j) as [p |] eqn:Hp;
    [| apply nth_error_None in Hp; lia].
  destruct (Hslot j p Hp) as (q' & Hq' & Hb).
  assert (q' = q) by congruence. subst q'. exact Hb.
Qed.

(** The theorem after a resize from 800x600 to 400x300 that left a particle
    at (700,500). *)
Lemma updateParticles_in_bounds_witness :
  let st := mkStore [mkParticle 700 500 1 1 2 None 1 0 100] None 0 in
  let st' := updateParticles (fun _ => 0) 150 0.5 400 300 st in
  length (particles st') = 1%nat /\
  (forall (j : nat) (p : Particle),
     nth_error [mkParticle 700 500 1 1 2 None 1 0 100] j = Some p ->
     exists q,
       nth_error (particles st') j = Some q /\
       0 <= px q <= 400 /\ 0 <= py q <= 300) /\
  Forall (fun p => 0 <= px p <= 400 /\ 0 <= py p <= 300) (particles st').
Proof.
  apply (updateParticles_in_bounds (fun _ => 0) 150 0.5 400 300
           (mkStore [mkParticle 700 500 1 1 2 None 1 0 100] None 0)); lra.
Defined.

(** C4, as the code has it: the positions and velocities after a tick are a
    function of the positions and velocities before it, the pointer, the
    parameters and the canvas size (the random source only reaches alpha),
    and the update is sequential and in place: the particle of slot i is
    moved against the already updated particles of the slots before i and
    the pre-tick particles of the slots from i on. *)
Theorem updateParticles_sequential
    (random : nat -> R) (interactionRadius interactionStrength width height : R)
    (st : Store) :
  let st' := updateParticles random interactionRadius interactionStrength
               width height st in
  length (particles st') = length (particles st) /\
  (forall (i : nat) (p : Particle),
     nth_error (particles st) i = Some p ->
     exists q,
       nth_error (particles st') i = Some q /\
       kinematics q
       = kinematics
           (move interactionRadius interactionStrength width height
              (handPosition st)
              (firstn i (particles st') ++ skipn i (particles st)) i p)) /\
  (forall (random' : nat -> R) (st2 : Store),
     map kinematics (particles st2) = map kinematics (particles st) ->
     handPosition st2 = handPosition st ->
     map kinematics
       (particles (updateParticles random' interactionRadius interactionStrength
                     width height st2))
     = map kinematics (particles st')).
Proof.
  cbn zeta. split; [| split].
  - unfold updateParticles.
    destruct (forEachFrom _ _ _ _ _ _ _ _ _ _) as [res k'] eqn:Hrun.
    apply forEachFrom_spec in Hrun; [| reflexivity]. apply Hrun.
  - intros i p Hp. unfold updateParticles.
    destruct (forEachFrom _ _ _ _ _ _ _ _ _ _) as [res k'] eqn:Hrun.
    cbn [particles].
    apply forEachFrom_spec in Hrun; [| reflexivity].
    destruct Hrun as (_ & _ & Hafter).
    destruct (Hafter i p ltac:(lia) Hp) as [ki Hki].
    eexists. split; [exact Hki | apply lifecycle_kinematics].
  - intros random' st2 Hm Hh. unfold updateParticles.
    pose proof (forEachFrom_kin interactionRadius interactionStrength width height
                  random' random (handPosition st) (length (particles st)) 0%nat
                  (particles st2) (particles st) (draws st2) (draws st) Hm) as K.
    assert (Hlen : length (particles st2) = length (particles st))
      by (rewrite <- (length_map kinematics), Hm; apply length_map).
    rewrite Hlen, Hh.
    destruct (forEachFrom random' _ _ _ _ _ _ _ _ _) as [res2 k2].
    destruct (forEachFrom random _ _ _ _ _ _ _ _ _) as [res k'].
    exact K.
Qed.

(** The theorem at the array of the fast and the slow particle. *)
Lemma updateParticles_sequential_witness :
  let st := mkStore [fast; slow] None 0 in
  let st' := updateParticles (fun _ => 0) 150 0.5 100 100 st in
  length (particles st') = 2%nat /\
  (forall (i : nat) (p : Particle),
     nth_error [fast; slow] i = Some p ->
     exists q,
       nth_error (particles st') i = Some q /\
       kinematics q
       = kinematics
           (move 150 0.5 100 100 None
              (firstn i (particles st') ++ skipn i [fast; slow]) i p)) /\
  (forall (random' : nat -> R) (st2 : Store),
     map kinematics (particles st2) = map kinematics [fast; slow] ->
     handPosition st2 = None ->
     map kinematics (particles (updateParticles random' 150 0.5 100 100 st2))
     = map kinematics (particles st')).
Proof.
  exact (updateParticles_sequential (fun _ => 0) 150 0.5 100 100
           (mkStore [fast; slow] None 0)).
Defined.

End UpdateClaims.

(** ** A tick on two close particles *)

Section SequentialExample.
Local Open Scope R_scope.
Import Num ParticleSystem.

Lemma quad_eq (a b c d a' b' c' d' : R) :
  a = a' -> b = b' -> c = c' -> d = d' -> (a, b, c, d) = (a', b', c', d').
Proof. congruence. Qed.

(** Two particles 20 pixels or more apart do not push each other. *)
Lemma separation_apart (p other : Particle) :
  400 <= (px other - px p) * (px other - px p)
         + (py other - py p) * (py other - py p) ->
  separation p other = p.
Proof.
  intro H. unfold separation.
  replace (ltb (sqrt _) 20) with false; [reflexivity |].
  symmetry. apply ltb_false.
  destruct (Rle_or_lt 20 (sqrt ((px other - px p) * (px other - px p)
                               + (py other - py p) * (py other - py p))))
    as [Hle | Hlt]; [exact Hle |].
  apply sqrt_lt_iff in Hlt; [lra | apply sumsq_nonneg | lra].
Qed.

(** Two particles at distance [d], 0 < d < 20, do. *)
Lemma separation_near (p other : Particle) (d : R) :
  0 < d < 20 ->
  d * d = (px other - px p) * (px other - px p)
          + (py other - py p) * (py other - py p) ->
  separation p other
  = set_vel p
      (vx p - (px other - px p) / d * ((20 - d) / 20 * 0.05))
      (vy p - (py other - py p) / d * ((20 - d) / 20 * 0.05)).
Proof.
  intros Hd Hdd. unfold separation.
  replace (sqrt _) with d by (symmetry; apply sqrt_lem_1; [nra | lra | exact Hdd]).
  replace (ltb d 20) with true by (symmetry; apply ltb_true; lra).
  replace (ltb 0 d) with true by (symmetry; apply ltb_true; lra).
  reflexivity.
Qed.

(** Settles the boundary tests of [bounce] on known numbers. *)
Ltac settle_bounce :=
  unfold bounce;
  repeat (match goal with
          | |- context [ltb ?a ?b] =>
              lazymatch a with context [ltb _ _] => fail | _ => idtac end;
              lazymatch b with context [ltb _ _] => fail | _ => idtac end;
              let E := fresh "E" in
              destruct (ltb a b) eqn:E;
              [apply ltb_true in E | apply ltb_false in E];
              cbn [px py vx vy set_x set_y set_vel integrate] in *;
              try (exfalso; lra)
          end).

(** The fast particle, first in the array, is pushed by the slow one, 15
    pixels away, and stopped by the left edge. *)
Lemma fast_moves_first :
  kinematics (move 150 0.5 100 100 None [fast; slow] 0 fast)
  = (0, 10.02, 49.006125, 0.02).
Proof.
  unfold move, pointerForce. cbn [fluid Nat.eqb].
  rewrite (separation_near fast slow 15) by (cbn [px py fast slow]; lra).
  unfold integrate, set_vel.
  cbn [px py vx vy radius color alpha life maxLife fast slow].
  settle_bounce. unfold kinematics. cbn [px py vx vy set_x set_y].
  apply quad_eq; lra.
Qed.

(** Against the pre-tick array the slow particle is pushed by the fast one. *)
Lemma slow_moves_against_snapshot :
  kinematics (move 150 0.5 100 100 None [fast; slow] 1 slow)
  = (25.01225, 10.02, 0.01225, 0.02).
Proof.
  unfold move, pointerForce. cbn [fluid Nat.eqb].
  rewrite (separation_near slow fast 15) by (cbn [px py fast slow]; lra).
  unfold integrate, set_vel.
  cbn [px py vx vy radius color alpha life maxLife fast slow].
  settle_bounce. unfold kinematics. cbn [px py vx vy set_x set_y].
  apply quad_eq; lra.
Qed.

(** Against the array in which the fast particle has already moved to the
    left edge, 25 pixels away, it is not. *)
Lemma slow_moves_second (q : Particle) :
  kinematics q = (0, 10.02, 49.006125, 0.02) ->
  kinematics (move 150 0.5 100 100 None [q; slow] 1 slow)
  = (25, 10.02, 0, 0.02).
Proof.
  intro Hq. unfold kinematics in Hq. injection Hq as Hx Hy _ _.
  unfold move, pointerForce. cbn [fluid Nat.eqb].
  rewrite separation_apart by (rewrite Hx, Hy; cbn [px py slow]; lra).
  unfold integrate.
  cbn [px py vx vy radius color alpha life maxLife slow].
  settle_bounce. unfold kinematics. cbn [px py vx vy set_x set_y].
  apply quad_eq; lra.
Qed.

(** C4, as the claim has it, fails on this array: after the in-place
    sequential tick the slow particle is at x = 25 with no x-velocity,
    after the update computed from a snapshot it is at x = 25.01225. *)
Lemma updateParticles_differs_from_snapshot :
  let st := mkStore [fast; slow] None 0 in
  map kinematics (particles (updateParticles (fun _ => 0) 150 0.5 100 100 st))
  = [(0, 10.02, 49.006125, 0.02); (25, 10.02, 0, 0.02)] /\
  map kinematics
    (particles (updateParticles_snapshot (fun _ => 0) 150 0.5 100 100 st))
  = [(0, 10.02, 49.006125, 0.02); (25.01225, 10.02, 0.01225, 0.02)] /\
  map kinematics (particles (updateParticles (fun _ => 0) 150 0.5 100 100 st))
  <> map kinematics
       (particles (updateParticles_snapshot (fun _ => 0) 150 0.5 100 100 st)).
Proof.
  cbn zeta.
  assert (Hseq :
    map kinematics
      (particles (updateParticles (fun _ => 0) 150 0.5 100 100
                    (mkStore [fast; slow] None 0)))
    = [(0, 10.02, 49.006125, 0.02); (25, 10.02, 0, 0.02)]).
  { unfold updateParticles.
    cbn [particles handPosition draws length forEachFrom nth_error store_at].
    pose proof (lifecycle_kinematics (fun _ => 0)
                  (move 150 0.5 100 100 None [fast; slow] 0 fast) 0%nat) as K0.
    destruct (lifecycle _ _ 0%nat) as [q0 k0]. cbn [fst] in K0.
    rewrite fast_moves_first in K0.
    cbn [forEachFrom nth_error store_at].
    pose proof (lifecycle_kinematics (fun _ => 0)
                  (move 150 0.5 100 100 None [q0; slow] 1 slow) k0) as K1.
    destruct (lifecycle _ _ k0) as [q1 k1]. cbn [fst] in K1.
    rewrite (slow_moves_second q0 K0) in K1.
    cbn [particles map]. rewrite K0, K1. reflexivity. }
  assert (Hsnap :
    map kinematics
      (particles (updateParticles_snapshot (fun _ => 0) 150 0.5 100 100
                    (mkStore [fast; slow] None 0)))
    = [(0, 10.02, 49.006125, 0.02); (25.01225, 10.02, 0.01225, 0.02)]).
  { unfold updateParticles_snapshot.
    cbn [particles handPosition draws snapshotFrom].
    pose proof (lifecycle_kinematics (fun _ => 0)
                  (move 150 0.5 100 100 None [fast; slow] 0 fast) 0%nat) as K0.
    destruct (lifecycle _ _ 0%nat) as [q0 k0]. cbn [fst] in K0.
    rewrite fast_moves_first in K0.
    pose proof (lifecycle_kinematics (fun _ => 0)
                  (move 150 0.5 100 100 None [fast; slow] 1 slow) k0) as K1.
    destruct (lifecycle _ _ k0) as [q1 k1]. cbn [fst] in K1.
    rewrite slow_moves_against_snapshot in K1.
    cbn [particles map]. rewrite K0, K1. reflexivity. }
  split; [exact Hseq | split; [exact Hsnap |]].
  rewrite Hseq, Hsnap. intro H.
  apply cons_eq_inv in H as [_ H]. apply cons_eq_inv in H as [H _].
  injection H as H _. lra.
Qed.

End SequentialExample.

(** ** [initParticles] *)

Section InitFacts.
Local Open Scope R_scope.
Import Num ParticleSystem.

Variable random : nat -> R.
Hypothesis random_range : forall n : nat, 0 <= random n < 1.

(** [Math.floor(Math.random() * 5)] is an index of the palette. *)
Lemma palette_index (r : R) :
  0 <= r < 1 ->
  exists c : string,
    nth_error PARTICLE_COLORS (Z.to_nat (Zfloor (r * INR (length PARTICLE_COLORS))))
    = Some c /\ In c PARTICLE_COLORS.
Proof.
  intros Hr.
  replace (INR (length PARTICLE_COLORS)) with 5 by (cbn; lra).
  pose proof (Zfloor_bound (r * 5)) as [Hlo Hhi].
  set (z := Zfloor (r * 5)) in *.
  assert (Hz5 : (z < 5)%Z) by (apply lt_IZR; lra).
  assert (Hz0 : (-1 < z)%Z) by (apply lt_IZR; lra).
  assert (Hn : (Z.to_nat z < 5)%nat) by lia.
  destruct (nth_error PARTICLE_COLORS (Z.to_nat z)) as [c |] eqn:Hc.
  - exists c. split; [reflexivity | exact (nth_error_In _ _ Hc)].
  - apply nth_error_None in Hc. cbn in Hc. lia.
Qed.

Lemma newParticle_ranges (width height : R) (k : nat) :
  0 <= width -> 0 <= height ->
  let p := newParticle random width height k in
  (0 <= px p <= width /\ 0 <= py p <= height) /\
  (-1 <= vx p <= 1 /\ -1 <= vy p <= 1) /\
  1 <= radius p <= 4 /\
  (exists c, color p = Some c /\ In c PARTICLE_COLORS) /\
  0.5 <= alpha p <= 1 /\
  0 <= life p < 100 /\
  100 <= maxLife p <= 200.
Proof.
  intros Hw Hh. cbn zeta. unfold newParticle.
  cbn [px py vx vy radius color alpha life maxLife].
  pose proof (random_range k). pose proof (random_range (k + 1)).
  pose proof (random_range (k + 2)). pose proof (random_range (k + 3)).
  pose proof (random_range (k + 4)). pose proof (random_range (k + 6)).
  pose proof (random_range (k + 7)). pose proof (random_range (k + 8)).
  repeat split; try nra.
  apply palette_index, random_range.
Qed.

(** The loop appends one particle per iteration left. *)
Lemma initLoop_spec (P : Particle -> Prop) (width height : R) :
  (forall k, P (newParticle random width height k)) ->
  forall (n : nat) (acc : list Particle) (k : nat),
  Forall P acc ->
  length (fst (initLoop random n width height acc k)) = (length acc + n)%nat /\
  Forall P (fst (initLoop random n width height acc k)).
Proof.
  intros Hnew. induction n as [| n IH]; intros acc k Hacc; cbn [initLoop].
  - cbn [fst]. split; [lia | exact Hacc].
  - destruct (IH (acc ++ [newParticle random width height k]) (k + 9)%nat)
      as [Hl HP].
    + apply Forall_app. split; [exact Hacc | constructor; [apply Hnew | constructor]].
    + split; [| exact HP]. rewrite Hl, length_app. cbn. lia.
Qed.

End InitFacts.

Section InitClaims.
Local Open Scope R_scope.
Import Num ParticleSystem.

(** C8, as the code has it: for a canvas of non-negative width and height
    and any count, initialization produces exactly count particles, each
    with position in [0,width]x[0,height], both velocity components in
    [-1,1], radius in [1,4], a color of the 5-entry palette, alpha in
    [0.5,1], age in [0,100) and lifespan in [100,200], the bound 200
    included; the new array replaces the existing one in a single
    assignment and owes nothing to it. *)
Theorem initParticles_spec
    (random : nat -> R) (particleCount : nat) (width height : R) (st : Store) :
  (forall n : nat, 0 <= random n < 1) ->
  0 <= width -> 0 <= height ->
  let st' := initParticles random particleCount width height st in
  length (particles st') = particleCount /\
  length PARTICLE_COLORS = 5%nat /\
  Forall (fun p =>
            (0 <= px p <= width /\ 0 <= py p <= height) /\
            (-1 <= vx p <= 1 /\ -1 <= vy p <= 1) /\
            1 <= radius p <= 4 /\
            (exists c, color p = Some c /\ In c PARTICLE_COLORS) /\
            0.5 <= alpha p <= 1 /\
            0 <= life p < 100 /\
            100 <= maxLife p <= 200)
    (particles st') /\
  (forall old : list Particle,
     particles (initParticles random particleCount width height
                  (mkStore old (handPosition st) (draws st)))
     = particles st') /\
  handPosition st' = handPosition st.
Proof.
  intros Hr Hw Hh. cbn zeta. unfold initParticles. cbn [draws handPosition].
  match goal with
  | |- context [Forall ?P _] =>
      pose proof (initLoop_spec random P width height
                    (fun k => newParticle_ranges random Hr width height k Hw Hh)
                    particleCount [] (draws st) (Forall_nil _)) as [Hl HP]
  end.
  destruct (initLoop random particleCount width height [] (draws st))
    as [ps k'].
  cbn [fst particles handPosition length] in *.
  repeat split; auto.
Qed.

(** The theorem for three particles on an 800x600 canvas, every draw of the
    random source being 0. *)
Lemma initParticles_spec_witness :
  let st' := initParticles (fun _ => 0) 3 800 600 (mkStore [] None 0) in
  length (particles st') = 3%nat /\
  length PARTICLE_COLORS = 5%nat /\
  Forall (fun p =>
            (0 <= px p <= 800 /\ 0 <= py p <= 600) /\
            (-1 <= vx p <= 1 /\ -1 <= vy p <= 1) /\
            1 <= radius p <= 4 /\
            (exists c, color p = Some c /\ In c PARTICLE_COLORS) /\
            0.5 <= alpha p <= 1 /\
            0 <= life p < 100 /\
            100 <= maxLife p <= 200)
    (particles st') /\
  (forall old : list Particle,
     particles (initParticles (fun _ => 0) 3 800 600 (mkStore old None 0))
     = particles st') /\
  handPosition st' = None.
Proof.
  apply (initParticles_spec (fun _ => 0) 3 800 600 (mkStore [] None 0));
    [intro n; lra | lra | lra].
Defined.

(** C8, as the claim has it, fails in binary64: for the draw 1 - 2^-53,
    which is at least 0 and less than 1, line 51 gives a lifespan of exactly
    200, which is not less than 200 (the age of line 50 stays below 100 at
    the same draw). *)
Lemma maxLife_reaches_200 :
  Binary64.below_one = SpecFloat.S754_finite false (2 ^ 53 - 1) (-53) /\
  Binary64.leb (Binary64.of_Z 0) Binary64.below_one = true /\
  Binary64.ltb Binary64.below_one (Binary64.of_Z 1) = true /\
  Binary64.maxLife Binary64.below_one = Binary64.of_Z 200 /\
  Binary64.ltb (Binary64.maxLife Binary64.below_one) (Binary64.of_Z 200) = false /\
  Binary64.ltb (Binary64.life Binary64.below_one) (Binary64.of_Z 100) = true.
Proof. repeat split; vm_compute; reflexivity. Qed.

End InitClaims.

(** ** The connection lines of [renderParticles] *)

Section RenderFacts.
Local Open Scope R_scope.
Import Num ParticleSystem.

(** For a pair closer than 50 pixels the loop body strokes one segment: it
    starts at the x of the first particle and the y of the second, and
    ends at the second particle. *)
Lemma connection_near (pi pj : Particle) :
  sqrt ((px pi - px pj) * (px pi - px pj) + (py pi - py pj) * (py pi - py pj))
    < 50 ->
  segments None (connection pi pj) = [((px pi, py pj), (px pj, py pj))].
Proof.
  intro H. unfold connection.
  replace (ltb (sqrt _) 50) with true by (symmetry; apply ltb_true; exact H).
  reflexivity.
Qed.

(** C5 at the particles (0,0) and (3,4), 5 pixels apart: the segment drawn
    is the horizontal one from (0,4) to (3,4), and not the one from (0,0)
    to (3,4) that joins the two particles. *)
Theorem renderConnections_first_endpoint :
  let a := mkParticle 0 0 0 0 2 None 1 0 100 in
  let b := mkParticle 3 4 0 0 2 None 1 0 100 in
  sqrt ((px a - px b) * (px a - px b) + (py a - py b) * (py a - py b)) = 5 /\
  renderConnections [a; b]
  = [BeginPath; MoveTo 0 4; LineTo 3 4;
     GlobalAlpha ((50 - sqrt ((0 - 3) * (0 - 3) + (0 - 4) * (0 - 4))) / 50 * 0.3);
     Stroke] /\
  segments None (renderConnections [a; b]) = [((0, 4), (3, 4))] /\
  segments None (renderConnections [a; b]) <> [((px a, py a), (px b, py b))].
Proof.
  cbn zeta. cbn [px py].
  assert (Hd : sqrt ((0 - 3) * (0 - 3) + (0 - 4) * (0 - 4)) = 5)
    by (apply sqrt_lem_1; lra).
  assert (Hops :
    renderConnections [mkParticle 0 0 0 0 2 None 1 0 100;
                       mkParticle 3 4 0 0 2 None 1 0 100]
    = [BeginPath; MoveTo 0 4; LineTo 3 4;
       GlobalAlpha ((50 - sqrt ((0 - 3) * (0 - 3) + (0 - 4) * (0 - 4))) / 50 * 0.3);
       Stroke]).
  { cbn [renderConnections flat_map app]. unfold connection. cbn [px py].
    replace (ltb (sqrt _) 50) with true
      by (symmetry; apply ltb_true; rewrite Hd; lra).
    reflexivity. }
  split; [exact Hd | split; [exact Hops |]].
  rewrite Hops. cbn [segments]. split; [reflexivity |].
  intro H. apply cons_eq_inv in H as [H _].
  injection H as H. lra.
Qed.

End RenderFacts.

(** ** The scan of [processFrame] *)

Section ScanFacts.
Local Open Scope Z_scope.
Import HandTracking.

(** The mean of three channel differences exceeds 25 exactly when their
    sum exceeds 75. *)
Lemma exceeds_mean3 (r g b : Z) :
  exceeds (mean3 (Some r) (Some g) (Some b)) threshold = true <-> 75 < r + g + b.
Proof.
  unfold exceeds, mean3, threshold. rewrite negb_true_iff.
  rewrite <- not_true_iff_false, Qle_bool_iff.
  unfold Qle, Qdiv, Qmult, Qinv, inject_Z. cbn. lia.
Qed.

(** The loop variable takes the values [from], [from + 4], ... below
    [bound], provided the fuel does not run out first. *)
Lemma stepsFrom_In (fuel : nat) :
  forall (from bound v : Z),
  bound - from <= Z.of_nat fuel ->
  In v (stepsFrom fuel from bound) <->
  (exists q : Z, 0 <= q /\ v = from + 4 * q /\ v < bound).
Proof.
  induction fuel as [| fuel IH]; intros from bound v Hfuel; cbn [stepsFrom].
  - split; [contradiction | intros (q & Hq & -> & Hlt); lia].
  - destruct (from <? bound) eqn:E;
      [apply Z.ltb_lt in E | apply Z.ltb_ge in E].
    + cbn [In]. unfold step. rewrite IH by lia. split.
      * intros [<- | (q & Hq & -> & Hlt)].
        -- exists 0. lia.
        -- exists (q + 1). lia.
      * intros (q & Hq & -> & Hlt).
        destruct (Z.eq_dec q 0) as [-> | Hne]; [left; lia | right].
        exists (q - 1). lia.
    + split; [contradiction | intros (q & Hq & -> & Hlt); lia].
Qed.

(** The sampled coordinates are the multiples of 4 below the bound. *)
Lemma steps_In (bound v : Z) :
  In v (steps bound) <-> (exists q : Z, 0 <= q /\ v = 4 * q /\ v < bound).
Proof.
  unfold steps. rewrite stepsFrom_In by lia.
  split; intros (q & Hq & Hv & Hlt); exists q; lia.
Qed.

Lemma samplePixel_count (currentFrame prev : ImageData) (width : Z)
    (m : Motion) (y x : Z) :
  motionCount (samplePixel currentFrame prev width m y x)
  = motionCount m
    + (if isMotionPixel currentFrame prev width y x then 1 else 0).
Proof.
  unfold samplePixel. destruct (isMotionPixel _ _ _ _ _); cbn; lia.
Qed.

(** The counter after a row: one more for every motion pixel of the row. *)
Lemma row_count (currentFrame prev : ImageData) (width y : Z) (xs : list Z) :
  forall m : Motion,
  motionCount
    (fold_left (fun m' x => samplePixel currentFrame prev width m' y x) xs m)
  = motionCount m
    + Z.of_nat (length (filter (isMotionPixel currentFrame prev width y) xs)).
Proof.
  induction xs as [| x xs IH]; intro m; cbn [fold_left filter].
  - cbn. lia.
  - rewrite IH, samplePixel_count.
    destruct (isMotionPixel currentFrame prev width y x); cbn [length]; lia.
Qed.

Lemma filter_row (f : Z * Z -> bool) (y : Z) (xs : list Z) :
  length (filter f (map (pair y) xs))
  = length (filter (fun x => f (y, x)) xs).
Proof.
  induction xs as [| x xs IH]; cbn; [reflexivity |].
  destruct (f (y, x)); cbn; rewrite IH; reflexivity.
Qed.

(** The counter after the rows [ys]: one more for every motion pixel of the
    grid [ys] x [steps width]. *)
Lemma rows_count (currentFrame prev : ImageData) (width : Z) (ys : list Z) :
  forall m : Motion,
  motionCount (fold_left (scanRow currentFrame prev width) ys m)
  = motionCount m
    + Z.of_nat
        (length
           (filter (fun yx => isMotionPixel currentFrame prev width (fst yx) (snd yx))
              (list_prod ys (steps width)))).
Proof.
  induction ys as [| y ys IH]; intro m; cbn [fold_left list_prod].
  - cbn. lia.
  - rewrite IH. unfold scanRow. rewrite row_count.
    rewrite filter_app, length_app, filter_row. cbn [fst snd].
    rewrite Nat2Z.inj_add, Z.add_assoc. reflexivity.
Qed.

Lemma row_still (currentFrame prev : ImageData) (width y : Z) (xs : list Z) :
  (forall x, In x xs -> isMotionPixel currentFrame prev width y x = false) ->
  forall m : Motion,
  fold_left (fun m' x => samplePixel currentFrame prev width m' y x) xs m = m.
Proof.
  induction xs as [| x xs IH]; intros H m; cbn [fold_left]; [reflexivity |].
  unfold samplePixel at 2. rewrite (H x) by (left; reflexivity).
  apply IH. intros x' Hx'. apply H. right. exact Hx'.
Qed.

(** A scan that meets no motion pixel leaves the accumulators as they are. *)
Lemma rows_still (currentFrame prev : ImageData) (width : Z) (ys : list Z) :
  (forall y x, In y ys -> In x (steps width) ->
     isMotionPixel currentFrame prev width y x = false) ->
  forall m : Motion,
  fold_left (scanRow currentFrame prev width) ys m = m.
Proof.
  induction ys as [| y ys IH]; intros H m; cbn [fold_left]; [reflexivity |].
  unfold scanRow at 2. rewrite row_still.
  - apply IH. intros y' x Hy' Hx. apply H; [right; exact Hy' | exact Hx].
  - intros x Hx. apply H; [left; reflexivity | exact Hx].
Qed.

(** Equal channels give no motion pixel, whether they are in range or not. *)
Lemma isMotionPixel_equal (currentFrame prev : ImageData) (width y x : Z) :
  (forall c, 0 <= c <= 2 ->
     channel currentFrame ((y * width + x) * 4 + c)
     = channel prev ((y * width + x) * 4 + c)) ->
  isMotionPixel currentFrame prev width y x = false.
Proof.
  intro H. unfold isMotionPixel.
  pose proof (H 0 ltac:(lia)) as H0. rewrite Z.add_0_r in H0.
  rewrite H0, (H 1), (H 2) by lia.
  destruct (channel prev ((y * width + x) * 4)) as [r |]; [| reflexivity].
  destruct (channel prev ((y * width + x) * 4 + 1)) as [g |]; [| reflexivity].
  destruct (channel prev ((y * width + x) * 4 + 2)) as [b |]; [| reflexivity].
  cbn [absDiff]. apply not_true_iff_false. rewrite exceeds_mean3.
  rewrite !Z.sub_diag. cbn. lia.
Qed.

End ScanFacts.

(** ** [processFrame]: motion pixels and what is published *)

Section EstimatorClaims.
Local Open Scope Z_scope.
Import HandTracking.

(** C3, as the code has it: the scan visits the pixels whose two coordinates
    are multiples of 4, and counts such a pixel as a motion pixel if and only
    if the mean over the three color channels of the absolute differences
    between the current and the previous frame exceeds 25, that is, if and
    only if their sum exceeds 75. *)
Theorem motion_pixel_threshold
    (currentFrame prev : ImageData) (width height y x r g b r' g' b' : Z) :
  let i := (y * width + x) * 4 in
  channel currentFrame i = Some r ->
  channel currentFrame (i + 1) = Some g ->
  channel currentFrame (i + 2) = Some b ->
  channel prev i = Some r' ->
  channel prev (i + 1) = Some g' ->
  channel prev (i + 2) = Some b' ->
  (isMotionPixel currentFrame prev width y x = true <->
   75 < Z.abs (r - r') + Z.abs (g - g') + Z.abs (b - b')) /\
  (forall m : Motion,
     motionCount (samplePixel currentFrame prev width m y x)
     = motionCount m
       + (if isMotionPixel currentFrame prev width y x then 1 else 0)) /\
  motionCount (scan currentFrame prev width height)
  = Z.of_nat
      (length
         (filter (fun yx => isMotionPixel currentFrame prev width (fst yx) (snd yx))
            (list_prod (steps height) (steps width)))) /\
  (forall bound v : Z,
     In v (steps bound) <-> (exists q : Z, 0 <= q /\ v = 4 * q /\ v < bound)).
Proof.
  intros i Hr Hg Hb Hr' Hg' Hb'. repeat split.
  - unfold isMotionPixel. fold i. rewrite Hr, Hg, Hb, Hr', Hg', Hb'.
    cbn [absDiff]. apply exceeds_mean3.
  - unfold isMotionPixel. fold i. rewrite Hr, Hg, Hb, Hr', Hg', Hb'.
    cbn [absDiff]. apply exceeds_mean3.
  - intro m. apply samplePixel_count.
  - unfold scan. rewrite rows_count. reflexivity.
  - apply steps_In.
  - apply steps_In.
Qed.

(** The theorem at a one-pixel frame that went from black to (26,26,24). *)
Lemma motion_pixel_threshold_witness :
  let currentFrame := mkImageData [26; 26; 24; 255] in
  let prev := mkImageData [0; 0; 0; 255] in
  (isMotionPixel currentFrame prev 1 0 0 = true <->
   75 < Z.abs (26 - 0) + Z.abs (26 - 0) + Z.abs (24 - 0)) /\
  (forall m : Motion,
     motionCount (samplePixel currentFrame prev 1 m 0 0)
     = motionCount m + (if isMotionPixel currentFrame prev 1 0 0 then 1 else 0)) /\
  motionCount (scan currentFrame prev 1 1)
  = Z.of_nat
      (length
         (filter (fun yx => isMotionPixel currentFrame prev 1 (fst yx) (snd yx))
            (list_prod (steps 1) (steps 1)))) /\
  (forall bound v : Z,
     In v (steps bound) <-> (exists q : Z, 0 <= q /\ v = 4 * q /\ v < bound)).
Proof.
  apply (motion_pixel_threshold (mkImageData [26; 26; 24; 255])
           (mkImageData [0; 0; 0; 255]) 1 1 0 0 26 26 24 0 0 0);
    reflexivity.
Defined.

(** C3, as the claim has it, fails for every threshold between 25 and 30:
    a sampled pixel that went from black to (20,20,20) has a sum of
    differences of 60, above the threshold, and is not counted. *)
Lemma motion_pixel_sum_not_counted :
  let currentFrame := mkImageData [20; 20; 20; 255] in
  let prev := mkImageData [0; 0; 0; 255] in
  In 0 (steps 1) /\
  Z.abs (20 - 0) + Z.abs (20 - 0) + Z.abs (20 - 0) = 60 /\
  (forall t : Z, 25 <= t <= 30 -> t < 60) /\
  isMotionPixel currentFrame prev 1 0 0 = false /\
  motionCount (scan currentFrame prev 1 1) = 0.
Proof.
  cbn zeta. repeat split; try reflexivity; try (intros; lia).
  vm_compute. left. reflexivity.
Qed.

End EstimatorClaims.

Section PublishClaims.
Local Open Scope Z_scope.
Import HandTracking.

(** The estimator is running, the video is playing and decodable, and the
    frame could be drawn and read back. *)
Lemma processFrame_ready (World : Type)
    (onHandUpdate : option HandData -> World -> World)
    (e : Env) (st : State) (w : World) (width height : Z)
    (currentFrame : ImageData) :
  isRunning st = true -> video st = true -> canvas st = Some (width, height) ->
  paused e = false -> ended e = false -> 2 <= readyState e ->
  hasContext e = true -> capture e = Some currentFrame ->
  processFrame World onHandUpdate e (st, w)
  = (set_scheduled (set_prevFrame st (Some currentFrame)) true,
     match prevFrame st with
     | Some prev =>
         onHandUpdate
           (estimate e width height (scan currentFrame prev width height)) w
     | None => w
     end).
Proof.
  intros Hrun Hv Hc Hp He Hr Hctx Hcap. unfold processFrame.
  rewrite Hrun, Hv, Hc, Hp, He, Hctx, Hcap.
  replace (readyState e <? 2) with false by (symmetry; apply Z.ltb_ge; exact Hr).
  reflexivity.
Qed.

(** C9: on an analysis tick with a previous frame, the current frame becomes
    the previous frame whatever is published; the callback is called with
    null whenever the count of motion pixels is not above 30; and when the
    two frames agree on the three color channels of every sampled pixel the
    count is zero, so that null is published. *)
Theorem processFrame_no_motion (World : Type)
    (onHandUpdate : option HandData -> World -> World)
    (e : Env) (st : State) (w : World) (width height : Z)
    (prev currentFrame : ImageData) :
  isRunning st = true -> video st = true -> canvas st = Some (width, height) ->
  paused e = false -> ended e = false -> 2 <= readyState e ->
  hasContext e = true -> capture e = Some currentFrame ->
  prevFrame st = Some prev ->
  let m := scan currentFrame prev width height in
  let result := processFrame World onHandUpdate e (st, w) in
  prevFrame (fst result) = Some currentFrame /\
  (motionCount m <= 30 -> snd result = onHandUpdate None w) /\
  ((forall y x c, In y (steps height) -> In x (steps width) -> 0 <= c <= 2 ->
      channel currentFrame ((y * width + x) * 4 + c)
      = channel prev ((y * width + x) * 4 + c)) ->
   motionCount m = 0 /\ snd result = onHandUpdate None w).
Proof.
  intros Hrun Hv Hc Hp He Hr Hctx Hcap Hprev m result.
  unfold result.
  rewrite (processFrame_ready World onHandUpdate e st w width height currentFrame)
    by assumption.
  rewrite Hprev. cbn [fst snd]. fold m.
  assert (Hnull : motionCount m <= 30 ->
                  onHandUpdate (estimate e width height m) w = onHandUpdate None w).
  { intro Hm. unfold estimate.
    replace (30 <? motionCount m) with false
      by (symmetry; apply Z.ltb_ge; exact Hm).
    reflexivity. }
  split; [reflexivity | split; [exact Hnull |]].
  intro Hsame.
  assert (Hm : m = mkMotion 0 0 0).
  { unfold m, scan. apply rows_still. intros y x Hy Hx.
    apply isMotionPixel_equal. intros c Hc'. apply Hsame; assumption. }
  split; [rewrite Hm; reflexivity |].
  apply Hnull. rewrite Hm. cbn. lia.
Qed.

(** The theorem at two identical 8x8 frames, the callback writing its
    argument into a slot that held a pointer. *)
Lemma processFrame_no_motion_witness :
  let frame := mkImageData (repeat 200 256) in
  let e := mkEnv false false 4 320 240 true (Some frame) in
  let st := mkState true (Some (8, 8)) (Some frame) true true in
  let w := Some (mkHandData 1 1 true) in
  let m := scan frame frame 8 8 in
  let result := processFrame (option HandData) (fun h _ => h) e (st, w) in
  prevFrame (fst result) = Some frame /\
  (motionCount m <= 30 -> snd result = None) /\
  ((forall y x c, In y (steps 8) -> In x (steps 8) -> 0 <= c <= 2 ->
      channel frame ((y * 8 + x) * 4 + c) = channel frame ((y * 8 + x) * 4 + c)) ->
   motionCount m = 0 /\ snd result = None).
Proof.
  apply (processFrame_no_motion (option HandData) (fun h _ => h)
           (mkEnv false false 4 320 240 true (Some (mkImageData (repeat 200 256))))
           (mkState true (Some (8, 8)) (Some (mkImageData (repeat 200 256))) true true)
           (Some (mkHandData 1 1 true)) 8 8
           (mkImageData (repeat 200 256)) (mkImageData (repeat 200 256)));
    try reflexivity.
  cbn. lia.
Defined.

(** C10: on an analysis tick without a previous frame the callback is not
    called at all, so that whatever the caller holds, the hand-position slot
    in particular, is as it was, and the frame read back is the previous
    frame after the tick, the next animation frame being requested; this is
    the tick that follows [stop] and a new [initialize], since [stop]
    discards the previous frame and [initialize] does not make one. *)
Theorem processFrame_first_frame (World : Type)
    (onHandUpdate : option HandData -> World -> World)
    (e : Env) (st : State) (w : World) (width height : Z)
    (currentFrame : ImageData) :
  isRunning st = true -> video st = true -> canvas st = Some (width, height) ->
  paused e = false -> ended e = false -> 2 <= readyState e ->
  hasContext e = true -> capture e = Some currentFrame ->
  prevFrame st = None ->
  let result := processFrame World onHandUpdate e (st, w) in
  snd result = w /\
  prevFrame (fst result) = Some currentFrame /\
  scheduled (fst result) = true /\
  (isRunning (fst result) = true /\ video (fst result) = true /\
   canvas (fst result) = Some (width, height)) /\
  (forall (cv : option (R * R)) (store : ParticleSystem.Store),
     ParticleSystem.handPosition
       (snd (processFrame ParticleSystem.Store
               (FluidSimulation.handleHandUpdate cv) e (st, store)))
     = ParticleSystem.handPosition store) /\
  (forall (st0 : State) (w0 : World),
     let restarted := processFrame World onHandUpdate e
                        (initialized (stop st0), w0) in
     snd restarted = w0 /\
     prevFrame (fst restarted) = Some currentFrame /\
     scheduled (fst restarted) = true).
Proof.
  intros Hrun Hv Hc Hp He Hr Hctx Hcap Hprev. cbn zeta.
  rewrite (processFrame_ready World onHandUpdate e st w width height currentFrame)
    by assumption.
  rewrite Hprev. cbn [fst snd set_scheduled set_prevFrame prevFrame scheduled
                      isRunning video canvas].
  split; [reflexivity |].
  split; [reflexivity |].
  split; [reflexivity |].
  split; [repeat split; assumption |].
  split.
  - intros cv store.
    rewrite (processFrame_ready _ _ e st store width height currentFrame)
      by assumption.
    rewrite Hprev. reflexivity.
  - intros st0 w0.
    rewrite (processFrame_ready World onHandUpdate e (initialized (stop st0)) w0
               160 120 currentFrame)
      by (try assumption; reflexivity).
    cbn. repeat split.
Qed.

(** The theorem at the first tick after [stop] and [initialize], the slot
    holding a pointer. *)
Lemma processFrame_first_frame_witness :
  let frame := Frames.grey in
  let e := mkEnv false false 4 320 240 true (Some frame) in
  let st := initialized (stop (mkState true (Some (160, 120)) (Some frame) true false)) in
  let w := Some (mkHandData 1 1 true) in
  let result := processFrame (option HandData) (fun h _ => h) e (st, w) in
  snd result = w /\
  prevFrame (fst result) = Some frame /\
  scheduled (fst result) = true /\
  (isRunning (fst result) = true /\ video (fst result) = true /\
   canvas (fst result) = Some (160, 120)) /\
  (forall (cv : option (R * R)) (store : ParticleSystem.Store),
     ParticleSystem.handPosition
       (snd (processFrame ParticleSystem.Store
               (FluidSimulation.handleHandUpdate cv) e (st, store)))
     = ParticleSystem.handPosition store) /\
  (forall (st0 : State) (w0 : option HandData),
     let restarted := processFrame (option HandData) (fun h _ => h) e
                        (initialized (stop st0), w0) in
     snd restarted = w0 /\
     prevFrame (fst restarted) = Some frame /\
     scheduled (fst restarted) = true).
Proof.
  apply (processFrame_first_frame (option HandData) (fun h _ => h)
           (mkEnv false false 4 320 240 true (Some Frames.grey))
           (initialized
              (stop (mkState true (Some (160, 120)) (Some Frames.grey) true false)))
           (Some (mkHandData 1 1 true)) 160 120
           Frames.grey);
    try reflexivity.
  cbn. lia.
Defined.

End PublishClaims.

(** * Further properties of the particle system *)

(** ** What a tick leaves alone *)

Section TickAttributeFacts.
Local Open Scope R_scope.
Import Num ParticleSystem.

Variable random : nat -> R.
Variables interactionRadius interactionStrength width height : R.

Local Abbreviation same_attributes p q :=
  (radius q = radius p /\ color q = color p /\ alpha q = alpha p /\
   life q = life p /\ maxLife q = maxLife p).

Local Abbreviation same_position p q := (px q = px p /\ py q = py p).

Lemma pointerForce_keeps (hand : option HandPosition) (p : Particle) :
  same_position p (pointerForce interactionRadius interactionStrength hand p) /\
  same_attributes p (pointerForce interactionRadius interactionStrength hand p).
Proof.
  unfold pointerForce. destruct hand as [h |]; [| repeat split].
  destruct (ltb _ _ && ltb _ _); repeat split.
Qed.

Lemma separation_keeps (p other : Particle) :
  same_position p (separation p other) /\ same_attributes p (separation p other).
Proof. unfold separation. destruct (ltb _ _ && ltb _ _); repeat split. Qed.

Lemma fluid_keeps (i : nat) (others : list Particle) :
  forall (j : nat) (p : Particle),
  same_position p (fluid i j others p) /\ same_attributes p (fluid i j others p).
Proof.
  induction others as [| o others IH]; intros j p; cbn [fluid];
    [repeat split |].
  destruct (IH (S j) (if Nat.eqb i j then p else separation p o))
    as ((Hx & Hy) & Hr & Hc & Ha & Hl & Hm).
  destruct (Nat.eqb i j); [repeat split; assumption |].
  destruct (separation_keeps p o) as ((Hx' & Hy') & Hr' & Hc' & Ha' & Hl' & Hm').
  repeat split; congruence.
Qed.

Lemma bounce_keeps (p : Particle) :
  same_attributes p (bounce width height p).
Proof.
  unfold bounce.
  repeat match goal with
         | |- context [ltb ?a ?b] =>
             lazymatch a with context [ltb _ _] => fail | _ => idtac end;
             lazymatch b with context [ltb _ _] => fail | _ => idtac end;
             destruct (ltb a b);
             cbn [px py vx vy radius color alpha life maxLife set_x set_y]
         end; repeat split.
Qed.

Lemma move_keeps (hand : option HandPosition) (ps : list Particle) (i : nat)
    (p : Particle) :
  same_attributes p
    (move interactionRadius interactionStrength width height hand ps i p).
Proof.
  unfold move.
  destruct (pointerForce_keeps hand p) as (_ & Hr & Hc & Ha & Hl & Hm).
  destruct (fluid_keeps i ps 0
              (pointerForce interactionRadius interactionStrength hand p))
    as (_ & Hr' & Hc' & Ha' & Hl' & Hm').
  destruct (bounce_keeps
              (integrate
                 (fluid i 0 ps
                    (pointerForce interactionRadius interactionStrength hand p))))
    as (Hr'' & Hc'' & Ha'' & Hl'' & Hm'').
  cbn [integrate radius color alpha life maxLife] in *.
  unfold integrate in *. cbn [radius color alpha life maxLife] in *.
  repeat split; congruence.
Qed.

Lemma lifecycle_keeps (p : Particle) (k : nat) :
  radius (fst (lifecycle random p k)) = radius p /\
  color (fst (lifecycle random p k)) = color p /\
  maxLife (fst (lifecycle random p k)) = maxLife p.
Proof. unfold lifecycle. destruct (ltb _ _); repeat split. Qed.

(** The life counter stays between 0 and the life span, and a redrawn alpha
    is in [0.5,1). *)
Lemma lifecycle_ranges (p : Particle) (k : nat) :
  (forall n : nat, 0 <= random n < 1) ->
  0 <= life p -> 0 <= maxLife p -> 0.5 <= alpha p <= 1 ->
  0 <= life (fst (lifecycle random p k)) <= maxLife p /\
  0.5 <= alpha (fst (lifecycle random p k)) <= 1.
Proof.
  intros Hr Hl Hm Ha. unfold lifecycle. pose proof (Hr k).
  case_ltb; cbn [fst life alpha set_life]; lra.
Qed.

(** Every slot of the array after a tick holds the particle it held before,
    moved against some array and aged. *)
Lemma updateParticles_slot (st : Store) (j : nat) (q : Particle) :
  nth_error
    (particles (updateParticles random interactionRadius interactionStrength
                  width height st)) j = Some q ->
  exists (p : Particle) (ps : list Particle) (k : nat),
    nth_error (particles st) j = Some p /\
    q = fst (lifecycle random
               (move interactionRadius interactionStrength width height
                  (handPosition st) ps j p) k).
Proof.
  unfold updateParticles.
  destruct (forEachFrom _ _ _ _ _ _ _ _ _ _) as [res k'] eqn:Hrun.
  cbn [particles]. intro Hq.
  apply forEachFrom_spec in Hrun; [| reflexivity].
  destruct Hrun as (Hl & _ & Hafter).
  assert (Hj : (j < length (particles st))%nat)
    by (rewrite <- Hl; apply nth_error_Some; congruence).
  destruct (nth_error (particles st) j) as [p |] eqn:Hp;
    [| apply nth_error_None in Hp; lia].
  destruct (Hafter j p ltac:(lia) Hp) as [kj Hkj].
  exists p, (firstn j res ++ skipn j (particles st)), kj.
  split; [reflexivity | congruence].
Qed.

Lemma updateParticles_length (st : Store) :
  length (particles (updateParticles random interactionRadius interactionStrength
                       width height st))
  = length (particles st).
Proof.
  unfold updateParticles.
  destruct (forEachFrom _ _ _ _ _ _ _ _ _ _) as [res k'] eqn:Hrun.
  apply forEachFrom_spec in Hrun; [| reflexivity]. apply Hrun.
Qed.

Lemma updateParticles_hand (st : Store) :
  handPosition (updateParticles random interactionRadius interactionStrength
                  width height st)
  = handPosition st.
Proof.
  unfold updateParticles.
  destruct (forEachFrom _ _ _ _ _ _ _ _ _ _). reflexivity.
Qed.

End TickAttributeFacts.

(** ** Forces and the boundary *)

Section ForceProperties.
Local Open Scope R_scope.
Import Num ParticleSystem.

(** X1: a tick keeps the number of particles and the pointer slot, and in
    every slot the radius, the color and the life span of the particle. *)
Theorem updateParticles_keeps_identity
    (random : nat -> R) (interactionRadius interactionStrength width height : R)
    (st : Store) :
  let st' := updateParticles random interactionRadius interactionStrength
               width height st in
  length (particles st') = length (particles st) /\
  handPosition st' = handPosition st /\
  (forall (j : nat) (p : Particle),
     nth_error (particles st) j = Some p ->
     exists q,
       nth_error (particles st') j = Some q /\
       radius q = radius p /\ color q = color p /\ maxLife q = maxLife p).
Proof.
  cbn zeta. split; [apply updateParticles_length |].
  split; [apply updateParticles_hand |].
  intros j p Hp.
  destruct (nth_error
              (particles (updateParticles random interactionRadius
                            interactionStrength width height st)) j)
    as [q |] eqn:Hq.
  - exists q. split; [reflexivity |].
    destruct (updateParticles_slot _ _ _ _ _ _ _ _ Hq) as (p' & ps & k & Hp' & ->).
    assert (p' = p) by congruence. subst p'.
    destruct (lifecycle_keeps random
                (move interactionRadius interactionStrength width height
                   (handPosition st) ps j p) k) as (Hr & Hc & Hm).
    destruct (move_keeps interactionRadius interactionStrength width height
                (handPosition st) ps j p) as (Hr' & Hc' & _ & _ & Hm').
    repeat split; congruence.
  - apply nth_error_None in Hq.
    rewrite updateParticles_length in Hq.
    assert (j < length (particles st))%nat by (apply nth_error_Some; congruence).
    lia.
Qed.

(** A particle inside the canvas passes the boundary tests unchanged. *)
Lemma bounce_inside (width height : R) (p : Particle) :
  0 <= px p <= width -> 0 <= py p <= height ->
  bounce width height p = p.
Proof.
  intros Hx Hy. unfold bounce.
  replace (ltb (px p) 0) with false by (symmetry; apply ltb_false; lra).
  replace (ltb width (px p)) with false by (symmetry; apply ltb_false; lra).
  replace (ltb (py p) 0) with false by (symmetry; apply ltb_false; lra).
  replace (ltb height (py p)) with false by (symmetry; apply ltb_false; lra).
  reflexivity.
Qed.

(** What the four tests do to each axis. *)
Lemma bounce_axes (width height : R) (p : Particle) :
  0 <= width -> 0 <= height ->
  let q := bounce width height p in
  (px p < 0 -> px q = 0 /\ vx q = vx p * -0.5) /\
  (width < px p -> px q = width /\ vx q = vx p * -0.5) /\
  (0 <= px p <= width -> px q = px p /\ vx q = vx p) /\
  (py p < 0 -> py q = 0 /\ vy q = vy p * -0.5) /\
  (height < py p -> py q = height /\ vy q = vy p * -0.5) /\
  (0 <= py p <= height -> py q = py p /\ vy q = vy p).
Proof.
  intros Hw Hh. cbn zeta. unfold bounce.
  repeat match goal with
         | |- context [ltb ?a ?b] =>
             lazymatch a with context [ltb _ _] => fail | _ => idtac end;
             lazymatch b with context [ltb _ _] => fail | _ => idtac end;
             let E := fresh "E" in
             destruct (ltb a b) eqn:E;
             [apply ltb_true in E | apply ltb_false in E];
             cbn [px py vx vy set_x set_y] in *
         end;
    repeat split; intros; lra.
Qed.

(** X2: on a canvas of non-negative size, a coordinate that left the canvas
    is put on the edge it crossed and the velocity along that axis is
    multiplied by -0.5, a coordinate inside the canvas keeps its position
    and velocity; testing the boundary twice changes nothing more. *)
Theorem bounce_clamps_and_flips (width height : R) (p : Particle) :
  0 <= width -> 0 <= height ->
  let q := bounce width height p in
  (px p < 0 -> px q = 0 /\ vx q = vx p * -0.5) /\
  (width < px p -> px q = width /\ vx q = vx p * -0.5) /\
  (0 <= px p <= width -> px q = px p /\ vx q = vx p) /\
  (py p < 0 -> py q = 0 /\ vy q = vy p * -0.5) /\
  (height < py p -> py q = height /\ vy q = vy p * -0.5) /\
  (0 <= py p <= height -> py q = py p /\ vy q = vy p) /\
  bounce width height q = q.
Proof.
  intros Hw Hh q.
  destruct (bounce_axes width height p Hw Hh) as (A & B & C & D & E & F).
  repeat (split; [assumption |]).
  destruct (bounce_in_bounds width height p Hw Hh).
  apply bounce_inside; assumption.
Qed.

(** The theorem for a particle at (700,500) on a canvas shrunk to 400x300. *)
Lemma bounce_clamps_and_flips_witness :
  let p := mkParticle 700 500 1 2 2 None 1 0 100 in
  let q := bounce 400 300 p in
  (px p < 0 -> px q = 0 /\ vx q = vx p * -0.5) /\
  (400 < px p -> px q = 400 /\ vx q = vx p * -0.5) /\
  (0 <= px p <= 400 -> px q = px p /\ vx q = vx p) /\
  (py p < 0 -> py q = 0 /\ vy q = vy p * -0.5) /\
  (300 < py p -> py q = 300 /\ vy q = vy p * -0.5) /\
  (0 <= py p <= 300 -> py q = py p /\ vy q = vy p) /\
  bounce 400 300 q = q.
Proof.
  apply (bounce_clamps_and_flips 400 300 (mkParticle 700 500 1 2 2 None 1 0 100));
    lra.
Defined.

End ForceProperties.

Section SeparationProperties.
Local Open Scope R_scope.
Import Num ParticleSystem.

(** Two particles at the same place, or 20 pixels or more apart, do not
    push each other. *)
Lemma separation_guard (p other : Particle) :
  let dx := px other - px p in
  let dy := py other - py p in
  let d := sqrt (dx * dx + dy * dy) in
  d <= 0 \/ 20 <= d ->
  separation p other = p.
Proof.
  intros dx dy d H. unfold separation. fold dx dy d.
  destruct H as [H | H].
  - replace (ltb 0 d) with false by (symmetry; apply ltb_false; exact H).
    rewrite andb_false_r. reflexivity.
  - replace (ltb d 20) with false by (symmetry; apply ltb_false; exact H).
    reflexivity.
Qed.

(** A coordinate of a vector is at most its length. *)
Lemma coordinate_over_length (a b d : R) :
  0 < d -> d * d = a * a + b * b -> -1 <= a / d <= 1.
Proof.
  intros Hd Hdd.
  assert (Hu : a / d * d = a) by (field; lra).
  set (u := a / d) in *. clearbody u.
  assert (u * u <= 1).
  { assert (Hua : u * u * (d * d) = a * a) by (rewrite <- Hu; ring).
    assert (Hd2 : 0 < d * d) by (apply Rmult_lt_0_compat; lra).
    apply Rnot_lt_le. intro Hgt.
    assert (1 * (d * d) < u * u * (d * d))
      by (apply Rmult_lt_compat_r; assumption).
    pose proof (Rle_0_sqr b) as Hb. unfold Rsqr in Hb. lra. }
  split; nra.
Qed.



(** One neighbour changes each velocity component by at most 0.05. *)
Lemma separation_bounded (p other : Particle) :
  -0.05 <= vx (separation p other) - vx p <= 0.05 /\
  -0.05 <= vy (separation p other) - vy p <= 0.05.
Proof.
  set (dx := px other - px p). set (dy := py other - py p).
  set (d := sqrt (dx * dx + dy * dy)).
  destruct (Rle_or_lt d 0) as [H0 | H0];
    [rewrite separation_guard by (left; exact H0); lra |].
  destruct (Rle_or_lt 20 d) as [H20 | H20];
    [rewrite separation_guard by (right; exact H20); lra |].
  assert (Hdd : d * d = dx * dx + dy * dy) by (apply sqrt_sqrt, sumsq_nonneg).
  rewrite (separation_near p other d) by (try exact Hdd; lra).
  cbn [vx vy set_vel]. fold dx dy.
  pose proof (coordinate_over_length dx dy d H0 Hdd) as Hx.
  assert (Hdd' : d * d = dy * dy + dx * dx) by lra.
  pose proof (coordinate_over_length dy dx d H0 Hdd') as Hy.
  set (f := (20 - d) / 20 * 0.05).
  assert (Hf : 0 < f < 0.05) by (unfold f; lra).
  split; nra.
Qed.

(** X4: the inner loop never writes the position of the particle, and
    changes each component of its velocity by at most 0.05 for every
    particle of the array. *)
Theorem fluid_bounded (i : nat) (others : list Particle) :
  forall (j : nat) (p : Particle),
  let q := fluid i j others p in
  px q = px p /\ py q = py p /\
  - (0.05 * INR (length others)) <= vx q - vx p <= 0.05 * INR (length others) /\
  - (0.05 * INR (length others)) <= vy q - vy p <= 0.05 * INR (length others).
Proof.
  induction others as [| o others IH]; intros j p; cbn zeta; cbn [fluid].
  - cbn [length INR]. repeat split; lra.
  - destruct (IH (S j) (if Nat.eqb i j then p else separation p o))
      as (Hx & Hy & Hvx & Hvy).
    change (length (o :: others)) with (S (length others)). rewrite S_INR.
    pose proof (pos_INR (length others)) as Hn.
    destruct (Nat.eqb i j).
    + repeat split; try assumption; lra.
    + destruct (separation_keeps p o) as ((Hx' & Hy') & _).
      destruct (separation_bounded p o) as (Bx & By).
      repeat split; try congruence; lra.
Qed.

(** X5: without a pointer, a particle whose every neighbour in the array is
    at its own position or 20 pixels or more away is only damped, pulled
    down by 0.02 and moved, then tested against the boundary. *)
Theorem move_isolated
    (interactionRadius interactionStrength width height : R)
    (ps : list Particle) (i : nat) (p : Particle) :
  Forall (fun other =>
            let dx := px other - px p in
            let dy := py other - py p in
            sqrt (dx * dx + dy * dy) <= 0 \/ 20 <= sqrt (dx * dx + dy * dy))
    ps ->
  move interactionRadius interactionStrength width height None ps i p
  = bounce width height
      (mkParticle (px p + vx p * 0.98) (py p + (vy p * 0.98 + 0.02))
         (vx p * 0.98) (vy p * 0.98 + 0.02)
         (radius p) (color p) (alpha p) (life p) (maxLife p)).
Proof.
  intro Hfar. unfold move, pointerForce.
  assert (Hfluid : forall j, fluid i j ps p = p).
  { induction Hfar as [| o others Ho _ IH]; intro j; cbn [fluid]; [reflexivity |].
    rewrite (separation_guard p o Ho).
    destruct (Nat.eqb i j); apply IH. }
  rewrite Hfluid. reflexivity.
Qed.

(** The theorem for a particle alone in its array. *)
Lemma move_isolated_witness :
  move 150 0.5 100 100 None [slow] 0 slow
  = bounce 100 100
      (mkParticle (px slow + vx slow * 0.98) (py slow + (vy slow * 0.98 + 0.02))
         (vx slow * 0.98) (vy slow * 0.98 + 0.02)
         (radius slow) (color slow) (alpha slow) (life slow) (maxLife slow)).
Proof.
  apply (move_isolated 150 0.5 100 100 [slow] 0 slow).
  constructor; [| constructor].
  left. cbn [px py slow].
  replace ((25 - 25) * (25 - 25) + (10 - 10) * (10 - 10)) with 0 by ring.
  rewrite sqrt_0. lra.
Defined.


End SeparationProperties.

(** ** The particles over a run of the animation loop *)

Section LoopInvariant.
Local Open Scope R_scope.
Import Num ParticleSystem SimulationLoop.

Variable random : nat -> R.
Variable particleCount : nat.
Variables interactionRadius interactionStrength : R.
Hypothesis random_range : forall n : nat, 0 <= random n < 1.

Local Abbreviation run := (run random particleCount interactionRadius interactionStrength).
Local Abbreviation step := (step random particleCount interactionRadius interactionStrength).

(** A particle as the hook keeps it on the canvas [c]. *)
Local Abbreviation healthy c p :=
  ((0 <= px p <= widthOf c /\ 0 <= py p <= heightOf c) /\
   1 <= radius p <= 4 /\
   (exists col, color p = Some col /\ In col PARTICLE_COLORS) /\
   0.5 <= alpha p <= 1 /\
   0 <= life p <= maxLife p /\
   100 <= maxLife p <= 200).

Local Abbreviation invariant l :=
  (match canvas l with
   | Some c => Forall (fun p => healthy c p) (particles (store l))
   | None => particles (store l) = []
   end).

Lemma widthOf_nonneg (c : Canvas) : 0 <= widthOf c.
Proof. unfold widthOf. apply IZR_le. lia. Qed.

Lemma heightOf_nonneg (c : Canvas) : 0 <= heightOf c.
Proof. unfold heightOf. apply IZR_le. lia. Qed.

Lemma initParticles_healthy (c : Canvas) (st : Store) :
  Forall (fun p => healthy c p)
    (particles (initParticles random particleCount (widthOf c) (heightOf c) st)).
Proof.
  unfold initParticles.
  match goal with
  | |- Forall ?P _ =>
      pose proof (initLoop_spec random P (widthOf c) (heightOf c)) as H
  end.
  assert (Hnew : forall k, healthy c (newParticle random (widthOf c) (heightOf c) k)).
  { intro k.
    destruct (newParticle_ranges random random_range (widthOf c) (heightOf c) k
                (widthOf_nonneg c) (heightOf_nonneg c))
      as (Hpos & _ & Hr & Hc & Ha & Hl & Hm).
    repeat split; try tauto; lra. }
  destruct (H Hnew particleCount [] (draws st) (Forall_nil _)) as [_ HP].
  destruct (initLoop random particleCount (widthOf c) (heightOf c) [] (draws st)).
  exact HP.
Qed.

Lemma updateParticles_healthy (c : Canvas) (st : Store) :
  Forall (fun p => healthy c p) (particles st) ->
  Forall (fun p => healthy c p)
    (particles (updateParticles random interactionRadius interactionStrength
                  (widthOf c) (heightOf c) st)).
Proof.
  intro Hst. apply Forall_forall. intros q Hq.
  apply In_nth_error in Hq as [j Hj].
  destruct (updateParticles_slot _ _ _ _ _ _ _ _ Hj) as (p & ps & k & Hp & ->).
  apply nth_error_In in Hp.
  rewrite Forall_forall in Hst.
  destruct (Hst p Hp) as (_ & Hr & Hc & Ha & Hl & Hm).
  set (m := move interactionRadius interactionStrength (widthOf c) (heightOf c)
              (handPosition st) ps j p).
  destruct (move_keeps interactionRadius interactionStrength (widthOf c)
              (heightOf c) (handPosition st) ps j p)
    as (Mr & Mc & Ma & Ml & Mm).
  fold m in Mr, Mc, Ma, Ml, Mm.
  destruct (lifecycle_keeps random m k) as (Lr & Lc & Lm).
  destruct (lifecycle_ranges random m k random_range) as (Ll & La);
    try (rewrite ?Ml, ?Mm, ?Ma; lra).
  pose proof (lifecycle_kinematics random m k) as K.
  apply kinematics_inv in K as (Kx & Ky & _ & _).
  destruct (bounce_in_bounds (widthOf c) (heightOf c)
              (integrate
                 (fluid j 0 ps
                    (pointerForce interactionRadius interactionStrength
                       (handPosition st) p)))
              (widthOf_nonneg c) (heightOf_nonneg c)) as (Bx & By).
  fold (move interactionRadius interactionStrength (widthOf c) (heightOf c)
          (handPosition st) ps j p) in Bx, By.
  fold m in Bx, By.
  rewrite Kx, Ky, Lr, Lc, Lm, Mr, Mc, Mm.
  repeat split; try tauto; try lra.
Qed.

Lemma animate_invariant (l : Loop) :
  invariant l ->
  invariant (animate random interactionRadius interactionStrength l).
Proof.
  unfold animate. destruct (canvas l) as [c |] eqn:Hc; [| rewrite Hc; auto].
  destruct (context c); [| rewrite Hc; auto].
  cbn [requestAnimationFrame set_store canvas store]. rewrite Hc.
  apply updateParticles_healthy.
Qed.

Lemma step_invariant (l : Loop) (ev : Event) :
  invariant l -> invariant (step l ev).
Proof.
  intro H. destruct ev as [| | id | position | | container]; cbn [SimulationLoop.step].
  - unfold start. destruct (canvas l) as [c |] eqn:Hc; [| rewrite Hc; exact H].
    apply animate_invariant. cbn [set_store canvas store]. rewrite Hc.
    apply initParticles_healthy.
  - unfold stop. destruct (Nat.eqb _ 0); exact H.
  - unfold fire. destruct (existsb _ _); [| exact H].
    apply animate_invariant. exact H.
  - exact H.
  - unfold reinitialize. destruct (canvas l) as [c |] eqn:Hc;
      [| rewrite Hc; exact H].
    cbn [set_store canvas store]. rewrite Hc. apply initParticles_healthy.
  - unfold handleResize. destruct (canvas l) as [c |] eqn:Hc;
      [| rewrite Hc; exact H].
    destruct container as [[w h] |]; [| rewrite Hc; exact H].
    unfold reinitialize. cbn [set_canvas set_store canvas store].
    apply initParticles_healthy.
Qed.

Lemma run_invariant (evs : list Event) :
  forall l : Loop, invariant l -> invariant (run evs l).
Proof.
  induction evs as [| ev evs IH]; intros l H; [exact H |].
  cbn [SimulationLoop.run fold_left]. apply IH, step_invariant, H.
Qed.

End LoopInvariant.

Section LoopProperties.
Local Open Scope R_scope.
Import Num ParticleSystem SimulationLoop.

(** X7: from the mounted hook on, whatever calls are made ([start], [stop],
    animation frames, pointer updates, [reinitialize], resizes), every
    particle lies on the canvas as it is now, has radius in [1,4], a color
    of the palette, alpha in [0.5,1], a life counter between 0 and its life
    span, and a life span in [100,200], the bound 200 included. *)
Theorem run_keeps_particles_healthy
    (random : nat -> R) (particleCount : nat)
    (interactionRadius interactionStrength : R)
    (c : option Canvas) (evs : list Event) :
  (forall n : nat, 0 <= random n < 1) ->
  let l := run random particleCount interactionRadius interactionStrength evs
             (mounted c) in
  match canvas l with
  | Some c' =>
      Forall (fun p =>
                (0 <= px p <= widthOf c' /\ 0 <= py p <= heightOf c') /\
                1 <= radius p <= 4 /\
                (exists col, color p = Some col /\ In col PARTICLE_COLORS) /\
                0.5 <= alpha p <= 1 /\
                0 <= life p <= maxLife p /\
                100 <= maxLife p <= 200)
        (particles (store l))
  | None => particles (store l) = []
  end.
Proof.
  intros Hr. cbn zeta.
  apply (run_invariant random particleCount interactionRadius interactionStrength Hr).
  unfold mounted. cbn [canvas store particles].
  destruct c; [constructor | reflexivity].
Qed.

(** The theorem for a start on an 800x600 canvas, a frame, a resize to
    400x300 and another frame, every draw of the random source being 0. *)
Lemma run_keeps_particles_healthy_witness :
  let l := run (fun _ => 0) 3 150 0.5
             [Start; Fire 1; Resize (Some (400%N, 300%N)); Fire 2]
             (mounted (Some (mkCanvas 800 600 true))) in
  match canvas l with
  | Some c' =>
      Forall (fun p =>
                (0 <= px p <= widthOf c' /\ 0 <= py p <= heightOf c') /\
                1 <= radius p <= 4 /\
                (exists col, color p = Some col /\ In col PARTICLE_COLORS) /\
                0.5 <= alpha p <= 1 /\
                0 <= life p <= maxLife p /\
                100 <= maxLife p <= 200)
        (particles (store l))
  | None => particles (store l) = []
  end.
Proof.
  apply (run_keeps_particles_healthy (fun _ => 0) 3 150 0.5
           (Some (mkCanvas 800 600 true))
           [Start; Fire 1; Resize (Some (400%N, 300%N)); Fire 2]).
  intro n. lra.
Defined.

(** X8: over any such run, the alpha with which the core of a particle is
    filled, alpha * sin(life / maxLife * pi), is a valid alpha in [0,1],
    and the radius of its glow is in [3,12]. *)
Theorem run_keeps_alpha_valid
    (random : nat -> R) (particleCount : nat)
    (interactionRadius interactionStrength : R)
    (c : option Canvas) (evs : list Event) :
  (forall n : nat, 0 <= random n < 1) ->
  Forall (fun p =>
            0 <= Render.lifeRatio p <= 1 /\
            0 <= Render.coreAlpha p <= 1 /\
            3 <= Render.glowRadius p <= 12)
    (particles
       (store (run random particleCount interactionRadius interactionStrength
                 evs (mounted c)))).
Proof.
  intros Hr.
  pose proof (run_invariant random particleCount interactionRadius
                interactionStrength Hr evs (mounted c)) as H.
  match type of H with
  | ?A -> _ =>
      assert (H0 : A)
        by (unfold mounted; cbn [canvas store particles];
            destruct c; [constructor | reflexivity])
  end.
  specialize (H H0). clear H0.
  destruct (canvas (run random particleCount interactionRadius
                      interactionStrength evs (mounted c))) as [c' |];
    [| rewrite H; constructor].
  eapply Forall_impl; [| exact H].
  intros p (_ & Hrad & _ & Ha & Hl & Hm).
  assert (Hratio : 0 <= life p / maxLife p <= 1).
  { split.
    - apply Rmult_le_pos; [lra | left; apply Rinv_0_lt_compat; lra].
    - apply (Rmult_le_reg_r (maxLife p)); [lra |].
      replace (life p / maxLife p * maxLife p) with (life p) by (field; lra).
      lra. }
  assert (Hsin : 0 <= Render.lifeRatio p <= 1).
  { unfold Render.lifeRatio. pose proof PI_RGT_0 as Hpi. split.
    - apply sin_ge_0; nra.
    - apply SIN_bound. }
  unfold Render.coreAlpha, Render.glowRadius.
  repeat split; try lra; try tauto; nra.
Qed.

(** The theorem for the same run. *)
Lemma run_keeps_alpha_valid_witness :
  Forall (fun p =>
            0 <= Render.lifeRatio p <= 1 /\
            0 <= Render.coreAlpha p <= 1 /\
            3 <= Render.glowRadius p <= 12)
    (particles
       (store (run (fun _ => 0) 3 150 0.5
                 [Start; Fire 1; Resize (Some (400%N, 300%N)); Fire 2]
                 (mounted (Some (mkCanvas 800 600 true)))))).
Proof.
  apply (run_keeps_alpha_valid (fun _ => 0) 3 150 0.5
           (Some (mkCanvas 800 600 true))
           [Start; Fire 1; Resize (Some (400%N, 300%N)); Fire 2]).
  intro n. lra.
Defined.

End LoopProperties.

(** ** The animation loop and its handles *)

Section LoopHandles.
Local Open Scope nat_scope.
Import ParticleSystem SimulationLoop.

Variable random : nat -> R.
Variable particleCount : nat.
Variables interactionRadius interactionStrength : R.

Local Abbreviation run := (run random particleCount interactionRadius interactionStrength).
Local Abbreviation step := (step random particleCount interactionRadius interactionStrength).
Local Abbreviation animate := (animate random interactionRadius interactionStrength).
Local Abbreviation start := (start random particleCount interactionRadius interactionStrength).

Lemma initParticles_length (width height : R) (st : Store) :
  length (particles (initParticles random particleCount width height st))
  = particleCount.
Proof.
  unfold initParticles.
  destruct (initLoop_spec random (fun _ => True) width height (fun _ => I)
              particleCount [] (draws st) (Forall_nil _)) as [Hl _].
  destruct (initLoop random particleCount width height [] (draws st)).
  exact Hl.
Qed.

(** On a canvas, with the array at its full count. *)
Local Abbreviation full l :=
  (canvas l <> None /\ length (particles (store l)) = particleCount).

Lemma animate_full (l : Loop) : full l -> full (animate l).
Proof.
  intros [Hc Hl]. unfold SimulationLoop.animate.
  destruct (canvas l) as [c |] eqn:E; [| rewrite E; auto].
  destruct (context c); [| rewrite E; auto].
  cbn [requestAnimationFrame set_store canvas store]. rewrite E.
  split; [discriminate | rewrite updateParticles_length; exact Hl].
Qed.

Lemma step_full (l : Loop) (ev : Event) : full l -> full (step l ev).
Proof.
  intros [Hc Hl].
  destruct ev as [| | id | position | | container]; cbn [SimulationLoop.step].
  - unfold SimulationLoop.start.
    destruct (canvas l) as [c |] eqn:E; [| congruence].
    apply animate_full. cbn [set_store canvas store]. rewrite E.
    split; [discriminate | apply initParticles_length].
  - unfold stop. destruct (Nat.eqb _ 0); split; assumption.
  - unfold fire. destruct (existsb _ _); [| split; assumption].
    apply animate_full. split; assumption.
  - split; assumption.
  - unfold reinitialize. destruct (canvas l) as [c |] eqn:E; [| congruence].
    cbn [set_store canvas store]. rewrite E.
    split; [discriminate | apply initParticles_length].
  - unfold handleResize. destruct (canvas l) as [c |] eqn:E; [| congruence].
    destruct container as [[w h] |]; [| rewrite E; split; [discriminate | exact Hl]].
    unfold reinitialize. cbn [set_canvas set_store canvas store].
    split; [discriminate | apply initParticles_length].
Qed.

(** X9: once started on a canvas, the array holds exactly particleCount
    particles after every later call: ticks keep the count, and [start],
    [reinitialize] and a resize build particleCount new ones. *)
Theorem run_keeps_count (c : Canvas) (evs : list Event) :
  length (particles (store (run evs (start (mounted (Some c))))))
  = particleCount.
Proof.
  assert (H : forall l, full l -> full (run evs l)).
  { induction evs as [| ev evs' IH]; intros l Hl; [exact Hl |].
    cbn [SimulationLoop.run fold_left]. apply IH, step_full, Hl. }
  apply H. unfold SimulationLoop.start, mounted. cbn [canvas].
  apply animate_full. cbn [set_store canvas store].
  split; [discriminate | apply initParticles_length].
Qed.

(** At most one callback is pending, and it is the one whose handle the ref
    holds. *)
Local Abbreviation single l :=
  ((pending l = [] \/ pending l = [animationFrame l]) /\
   (animationFrame l = 0 -> pending l = []) /\
   nextHandle l <> 0).

Lemma remove_single (a : nat) : remove Nat.eq_dec a [a] = [].
Proof. cbn. destruct (Nat.eq_dec a a); [reflexivity | congruence]. Qed.

Lemma animate_single (l : Loop) :
  pending l = [] -> nextHandle l <> 0 -> single (animate l).
Proof.
  intros Hp Hn. unfold SimulationLoop.animate.
  destruct (canvas l) as [c |]; [| rewrite Hp; auto].
  destruct (context c); [| rewrite Hp; auto].
  cbn [requestAnimationFrame animationFrame pending nextHandle set_store].
  rewrite Hp. repeat split; auto. intro; contradiction.
Qed.

Lemma step_single (l : Loop) (ev : Event) :
  ev <> Start -> single l -> single (step l ev).
Proof.
  intros Hev (Hp & H0 & Hn).
  destruct ev as [| | id | position | | container]; cbn [SimulationLoop.step];
    try contradiction.
  - unfold stop. destruct (Nat.eqb (animationFrame l) 0) eqn:E; [auto |].
    cbn [cancelAnimationFrame animationFrame pending nextHandle].
    repeat split; auto.
    + left. destruct Hp as [-> | ->]; [reflexivity | apply remove_single].
    + intro Hz. apply Nat.eqb_neq in E. contradiction.
  - unfold fire. destruct (existsb (Nat.eqb id) (pending l)) eqn:E; [| auto].
    apply animate_single; [| exact Hn].
    cbn [cancelAnimationFrame pending].
    destruct Hp as [Hp | Hp]; rewrite Hp in *; [discriminate |].
    cbn in E. rewrite orb_false_r in E. apply Nat.eqb_eq in E. subst id.
    apply remove_single.
  - auto.
  - unfold reinitialize. destruct (canvas l); auto.
  - unfold handleResize. destruct (canvas l); [| auto].
    destruct container as [[w h] |]; auto.
Qed.

(** X10: after a [start] on the mounted hook, whatever animation frames
    run and whatever calls other than a second [start] are made, [stop]
    leaves no callback pending: no later animation frame runs a tick. *)
Theorem stop_ends_loop (c : option Canvas) (evs : list Event) :
  Forall (fun ev => ev <> Start) evs ->
  let l := stop (run evs (start (mounted c))) in
  pending l = [] /\
  (forall id : nat,
     fire random interactionRadius interactionStrength id l = l).
Proof.
  intro Hevs. cbn zeta.
  assert (H : forall l, single l -> single (run evs l)).
  { induction Hevs as [| ev evs' Hev _ IH]; intros l Hl; [exact Hl |].
    cbn [SimulationLoop.run fold_left]. apply IH, step_single; assumption. }
  assert (Hs : single (start (mounted c))).
  { unfold SimulationLoop.start, mounted. cbn [canvas].
    destruct c as [c |].
    - apply animate_single; cbn; [reflexivity | discriminate].
    - cbn. repeat split; auto. }
  specialize (H _ Hs). clear Hs.
  set (l := run evs (start (mounted c))) in *.
  destruct H as (Hp & H0 & Hn).
  assert (Hstop : pending (stop l) = []).
  { unfold stop. destruct (Nat.eqb (animationFrame l) 0) eqn:E.
    - apply H0, Nat.eqb_eq, E.
    - cbn [cancelAnimationFrame pending].
      destruct Hp as [-> | ->]; [reflexivity | apply remove_single]. }
  split; [exact Hstop |].
  intro id. unfold fire. rewrite Hstop. reflexivity.
Qed.

(** X11: [start] on a hook whose loop is running leaves the running
    callback pending beside the new one, and [stop] cancels the new one
    only: the old callback is still pending after [stop], and when it runs
    the loop goes on with one more tick and a fresh request. *)
Theorem start_twice_survives_stop (l : Loop) (c : Canvas) :
  canvas l = Some c -> context c = true ->
  pending l = [animationFrame l] ->
  animationFrame l <> 0 -> animationFrame l < nextHandle l ->
  let l' := stop (start l) in
  pending l' = [animationFrame l] /\
  pending (fire random interactionRadius interactionStrength
             (animationFrame l) l') = [nextHandle l'] /\
  store (fire random interactionRadius interactionStrength
           (animationFrame l) l')
  = updateParticles random interactionRadius interactionStrength
      (widthOf c) (heightOf c) (store l').
Proof.
  intros Hc Hctx Hp Ha Hlt. cbn zeta.
  assert (Hs : pending (stop (start l)) = [animationFrame l] /\
               canvas (stop (start l)) = Some c).
  { unfold stop, SimulationLoop.start, SimulationLoop.animate.
    rewrite Hc. cbn [set_store canvas]. rewrite Hc, Hctx.
    cbn [requestAnimationFrame animationFrame pending nextHandle set_store canvas].
    destruct (Nat.eqb (nextHandle l) 0) eqn:E;
      [apply Nat.eqb_eq in E; lia |].
    unfold cancelAnimationFrame, requestAnimationFrame, set_store.
    cbn [pending canvas animationFrame nextHandle store]. rewrite Hp. cbn [remove].
    destruct (Nat.eq_dec (nextHandle l) (nextHandle l)); [| congruence].
    destruct (Nat.eq_dec (nextHandle l) (animationFrame l)); [lia |].
    split; [reflexivity | exact Hc]. }
  destruct Hs as [Hs Hc'].
  split; [exact Hs |].
  unfold fire. rewrite Hs. cbn [existsb]. rewrite Nat.eqb_refl. cbn [orb].
  unfold SimulationLoop.animate, cancelAnimationFrame. cbn [canvas].
  rewrite Hc', Hctx.
  unfold requestAnimationFrame, set_store.
  cbn [pending store nextHandle canvas animationFrame].
  rewrite Hs, remove_single. split; reflexivity.
Qed.

End LoopHandles.

(** The theorem for a run of two frames with a pointer update between. *)
Lemma stop_ends_loop_witness :
  let l := SimulationLoop.stop
             (SimulationLoop.run (fun _ => 0%R) 3 150%R 0.5%R
                [SimulationLoop.Fire 1; SimulationLoop.SetHandPosition None;
                 SimulationLoop.Fire 2]
                (SimulationLoop.start (fun _ => 0%R) 3 150%R 0.5%R
                   (SimulationLoop.mounted
                      (Some (SimulationLoop.mkCanvas 800 600 true))))) in
  SimulationLoop.pending l = [] /\
  (forall id : nat,
     SimulationLoop.fire (fun _ => 0%R) 150%R 0.5%R id l = l).
Proof.
  apply (stop_ends_loop (fun _ => 0%R) 3 150%R 0.5%R
           (Some (SimulationLoop.mkCanvas 800 600 true))
           [SimulationLoop.Fire 1; SimulationLoop.SetHandPosition None;
            SimulationLoop.Fire 2]).
  repeat constructor; discriminate.
Defined.

(** The theorem for the hook started once on an 800x600 canvas. *)
Lemma start_twice_survives_stop_witness :
  let l := SimulationLoop.start (fun _ => 0%R) 3 150%R 0.5%R
             (SimulationLoop.mounted
                (Some (SimulationLoop.mkCanvas 800 600 true))) in
  let c := SimulationLoop.mkCanvas 800 600 true in
  let l' := SimulationLoop.stop
              (SimulationLoop.start (fun _ => 0%R) 3 150%R 0.5%R l) in
  SimulationLoop.pending l' = [SimulationLoop.animationFrame l] /\
  SimulationLoop.pending
    (SimulationLoop.fire (fun _ => 0%R) 150%R 0.5%R
       (SimulationLoop.animationFrame l) l')
  = [SimulationLoop.nextHandle l'] /\
  SimulationLoop.store
    (SimulationLoop.fire (fun _ => 0%R) 150%R 0.5%R
       (SimulationLoop.animationFrame l) l')
  = ParticleSystem.updateParticles (fun _ => 0%R) 150%R 0.5%R
      (SimulationLoop.widthOf c) (SimulationLoop.heightOf c)
      (SimulationLoop.store l').
Proof.
  apply (start_twice_survives_stop (fun _ => 0%R) 3 150%R 0.5%R
           (SimulationLoop.start (fun _ => 0%R) 3 150%R 0.5%R
              (SimulationLoop.mounted
                 (Some (SimulationLoop.mkCanvas 800 600 true))))
           (SimulationLoop.mkCanvas 800 600 true));
    try reflexivity; cbn; lia.
Defined.

(** ** The alpha of the connection lines *)

Section ConnectionProperties.
Local Open Scope R_scope.
Import Num ParticleSystem.

Lemma alphas_app (a b : list CanvasOp) :
  Render.alphas (a ++ b) = Render.alphas a ++ Render.alphas b.
Proof.
  induction a as [| op a IH]; [reflexivity |].
  destruct op; cbn [app Render.alphas]; rewrite IH; reflexivity.
Qed.

Lemma connection_alphas (pi pj : Particle) :
  Forall (fun a => 0 < a <= 0.3) (Render.alphas (connection pi pj)).
Proof.
  unfold connection.
  set (d := sqrt ((px pi - px pj) * (px pi - px pj)
                  + (py pi - py pj) * (py pi - py pj))).
  pose proof (sqrt_pos ((px pi - px pj) * (px pi - px pj)
                        + (py pi - py pj) * (py pi - py pj))) as Hd.
  fold d in Hd.
  case_ltb; cbn [Render.alphas]; constructor; [lra | constructor].
Qed.

(** X12: every value the connection loop gives to [ctx.globalAlpha] is a
    valid alpha, greater than 0 and at most 0.3, whatever the particles
    are. *)
Theorem renderConnections_alphas_valid (ps : list Particle) :
  Forall (fun a => 0 < a <= 0.3) (Render.alphas (renderConnections ps)).
Proof.
  induction ps as [| pi rest IH]; cbn [renderConnections]; [constructor |].
  rewrite alphas_app. apply Forall_app. split; [| exact IH].
  clear IH. induction rest as [| pj rest IH]; cbn [flat_map]; [constructor |].
  rewrite alphas_app. apply Forall_app. split; [apply connection_alphas | exact IH].
Qed.

End ConnectionProperties.

(** * Further properties of the estimator *)

(** ** Ticks that publish nothing *)

Section IdleTicks.
Local Open Scope Z_scope.
Import HandTracking.

Variable World : Type.
Variable onHandUpdate : option HandData -> World -> World.

(** X13: after [stop], calls of [processFrame] that still arrive, however
    many and whatever the browser shows them, do not call the callback,
    store no frame and request no further animation frame: the state and
    the caller's world stay as [stop] left them. *)
Theorem processFrame_after_stop (es : list Env) (st : State) (w : World) :
  fold_left (fun sw e => processFrame World onHandUpdate e sw) es (stop st, w)
  = (stop st, w).
Proof.
  induction es as [| e es IH]; cbn [fold_left]; [reflexivity |].
  exact IH.
Qed.

(** X14: while the estimator runs, a tick on which the video or the canvas
    is missing, the video is paused, ended or has no current frame, no
    context is obtained, or drawing or reading back the frame throws,
    publishes nothing, keeps the previous frame and the other refs, and
    requests the next animation frame. *)
Theorem processFrame_not_ready (e : Env) (st : State) (w : World) :
  isRunning st = true ->
  video st = false \/ canvas st = None \/ paused e = true \/ ended e = true \/
  readyState e < 2 \/ hasContext e = false \/ capture e = None ->
  let result := processFrame World onHandUpdate e (st, w) in
  snd result = w /\
  prevFrame (fst result) = prevFrame st /\
  scheduled (fst result) = true /\
  isRunning (fst result) = true /\
  video (fst result) = video st /\
  canvas (fst result) = canvas st.
Proof.
  intros Hrun H. cbn zeta.
  assert (E : processFrame World onHandUpdate e (st, w) = (set_scheduled st true, w)).
  { unfold processFrame. rewrite Hrun. cbn [negb].
    destruct (canvas st) as [[width height] |]; [| reflexivity].
    destruct (video st); cbn [negb orb]; [| reflexivity].
    destruct (paused e); cbn [orb]; [reflexivity |].
    destruct (ended e); cbn [orb]; [reflexivity |].
    destruct (readyState e <? 2) eqn:Er; [reflexivity |].
    apply Z.ltb_ge in Er.
    destruct (hasContext e); cbn [negb]; [| reflexivity].
    destruct (capture e); [| reflexivity].
    destruct H as [H | [H | [H | [H | [H | [H | H]]]]]];
      try discriminate; lia. }
  rewrite E. cbn. repeat split. exact Hrun.
Qed.

End IdleTicks.

(** The theorem for a running estimator whose video is paused, no frame
    being requested before the tick. *)
Lemma processFrame_not_ready_witness :
  let e := HandTracking.mkEnv true false 4 320 240 true None in
  let frame := Frames.grey in
  let st := HandTracking.mkState true (Some (160, 120)%Z) (Some frame) true false in
  let w := Some (HandTracking.mkHandData 1 1 true) in
  let result :=
    HandTracking.processFrame (option HandTracking.HandData) (fun h _ => h) e
      (st, w) in
  snd result = w /\
  HandTracking.prevFrame (fst result) = Some frame /\
  HandTracking.scheduled (fst result) = true /\
  HandTracking.isRunning (fst result) = true /\
  HandTracking.video (fst result) = true /\
  HandTracking.canvas (fst result) = Some (160, 120)%Z.
Proof.
  apply (processFrame_not_ready (option HandTracking.HandData) (fun h _ => h)
           (HandTracking.mkEnv true false 4 320 240 true None)
           (HandTracking.mkState true (Some (160, 120)%Z) (Some Frames.grey)
              true false)
           (Some (HandTracking.mkHandData 1 1 true))).
  - reflexivity.
  - right; right; left; reflexivity.
Defined.

(** ** The scan is symmetric and its accumulators are bounded *)

Section ScanProperties.
Local Open Scope Z_scope.
Import HandTracking.

Lemma isMotionPixel_sym (a b : ImageData) (width y x : Z) :
  isMotionPixel a b width y x = isMotionPixel b a width y x.
Proof.
  unfold isMotionPixel.
  assert (S : forall u v, absDiff u v = absDiff v u).
  { intros [u |] [v |]; cbn; try reflexivity. f_equal. lia. }
  rewrite (S (channel a _)), (S (channel a (_ + 1))), (S (channel a (_ + 2))).
  reflexivity.
Qed.

Lemma fold_left_same {A B : Type} (f g : A -> B -> A) (l : list B) :
  (forall m x, f m x = g m x) ->
  forall m, fold_left f l m = fold_left g l m.
Proof.
  intro H. induction l as [| x l IH]; intro m; cbn; [reflexivity |].
  rewrite H. apply IH.
Qed.

(** X15: the scan does not tell the current frame from the previous one:
    exchanging the two frames gives the same count and the same sums. *)
Theorem scan_symmetric (a b : ImageData) (width height : Z) :
  scan a b width height = scan b a width height.
Proof.
  unfold scan. apply fold_left_same. intros m y.
  unfold scanRow. apply fold_left_same. intros m' x.
  unfold samplePixel. rewrite isMotionPixel_sym. reflexivity.
Qed.

(** The bounds that one sampled pixel keeps. *)
Local Abbreviation bounded width height m :=
  (0 <= motionCount m /\
   motionCount m <= motionX m <= width * motionCount m /\
   0 <= motionY m <= (height - 1) * motionCount m).

Lemma row_bounded (a b : ImageData) (width height y : Z) (xs : list Z) :
  0 <= y <= height - 1 ->
  (forall x, In x xs -> 0 <= x < width) ->
  forall m : Motion,
  bounded width height m ->
  bounded width height
    (fold_left (fun m' x => samplePixel a b width m' y x) xs m).
Proof.
  intros Hy. induction xs as [| x xs IH]; intros Hxs m Hm; [exact Hm |].
  cbn [fold_left]. apply IH; [intros; apply Hxs; right; assumption |].
  unfold samplePixel. destruct (isMotionPixel a b width y x); [| exact Hm].
  pose proof (Hxs x (or_introl eq_refl)).
  cbn [motionX motionY motionCount]. nia.
Qed.

Lemma rows_bounded (a b : ImageData) (width height : Z) (ys : list Z) :
  (forall y, In y ys -> 0 <= y <= height - 1) ->
  forall m : Motion,
  bounded width height m ->
  bounded width height (fold_left (scanRow a b width) ys m).
Proof.
  induction ys as [| y ys IH]; intros Hys m Hm; [exact Hm |].
  cbn [fold_left]. apply IH; [intros; apply Hys; right; assumption |].
  unfold scanRow. apply row_bounded; [apply Hys; left; reflexivity | | exact Hm].
  intros x Hx. apply steps_In in Hx as (q & Hq & -> & Hlt). lia.
Qed.

Lemma stepsFrom_length (fuel : nat) :
  forall from bound : Z,
  bound - from <= Z.of_nat fuel ->
  length (stepsFrom fuel from bound) = Z.to_nat ((bound - from + 3) / 4).
Proof.
  induction fuel as [| fuel IH]; intros from bound Hfuel; cbn [stepsFrom].
  - assert ((bound - from + 3) / 4 < 1)
      by (apply Z.div_lt_upper_bound; lia).
    cbn. lia.
  - destruct (from <? bound) eqn:E;
      [apply Z.ltb_lt in E | apply Z.ltb_ge in E].
    + cbn [length]. unfold step. rewrite IH by lia.
      replace (bound - from + 3) with (bound - (from + 4) + 3 + 1 * 4) by ring.
      rewrite Z.div_add by lia.
      assert (0 <= (bound - (from + 4) + 3) / 4)
        by (apply Z.div_pos; lia).
      lia.
    + assert ((bound - from + 3) / 4 < 1)
        by (apply Z.div_lt_upper_bound; lia).
      cbn. lia.
Qed.

Lemma filter_length_le {A : Type} (f : A -> bool) (l : list A) :
  (length (filter f l) <= length l)%nat.
Proof.
  induction l as [| x l IH]; cbn; [lia |].
  destruct (f x); cbn; lia.
Qed.

Lemma scan_bounds_aux (a b : ImageData) (width height : Z) :
  0 <= width -> 0 <= height ->
  bounded width height (scan a b width height).
Proof.
  intros Hw Hh. unfold scan. apply rows_bounded; [| cbn; lia].
  intros y Hy. apply steps_In in Hy as (q & Hq & -> & Hlt). lia.
Qed.

(** X16: the scan samples ceil(width/4) columns of ceil(height/4) rows; its
    count of motion pixels is at most the number of samples; the sum of the
    mirrored x lies between the count and width times the count, and the
    sum of the y between 0 and (height - 1) times the count. *)
Theorem scan_bounded (a b : ImageData) (width height : Z) :
  0 <= width -> 0 <= height ->
  let m := scan a b width height in
  length (steps width) = Z.to_nat ((width + 3) / 4) /\
  length (steps height) = Z.to_nat ((height + 3) / 4) /\
  0 <= motionCount m <= ((width + 3) / 4) * ((height + 3) / 4) /\
  motionCount m <= motionX m <= width * motionCount m /\
  0 <= motionY m <= (height - 1) * motionCount m.
Proof.
  intros Hw Hh m.
  assert (Lw : length (steps width) = Z.to_nat ((width + 3) / 4)).
  { unfold steps. rewrite stepsFrom_length by lia. f_equal. f_equal. lia. }
  assert (Lh : length (steps height) = Z.to_nat ((height + 3) / 4)).
  { unfold steps. rewrite stepsFrom_length by lia. f_equal. f_equal. lia. }
  destruct (scan_bounds_aux a b width height Hw Hh) as (B0 & BX & BY).
  fold m in B0, BX, BY.
  split; [exact Lw | split; [exact Lh |]].
  split; [split; [exact B0 |] | split; assumption].
  unfold m, scan. rewrite rows_count. cbn [motionCount].
  pose proof (filter_length_le
                (fun yx => isMotionPixel a b width (fst yx) (snd yx))
                (list_prod (steps height) (steps width))) as Hle.
  rewrite length_prod, Lw, Lh in Hle.
  assert (0 <= (width + 3) / 4) by (apply Z.div_pos; lia).
  assert (0 <= (height + 3) / 4) by (apply Z.div_pos; lia).
  nia.
Qed.

(** The theorem on the 160x120 analysis surface: 40 columns, 30 rows, at
    most 1200 motion pixels. *)
Lemma scan_bounded_witness :
  let frame := mkImageData (repeat 200 256) in
  let m := scan frame frame 160 120 in
  length (steps 160) = Z.to_nat ((160 + 3) / 4) /\
  length (steps 120) = Z.to_nat ((120 + 3) / 4) /\
  0 <= motionCount m <= ((160 + 3) / 4) * ((120 + 3) / 4) /\
  motionCount m <= motionX m <= 160 * motionCount m /\
  0 <= motionY m <= (120 - 1) * motionCount m.
Proof.
  apply (scan_bounded (mkImageData (repeat 200 256))
           (mkImageData (repeat 200 256)) 160 120); lia.
Defined.

End ScanProperties.

(** ** Where the published pointer lies *)

Section PointerPosition.
Local Open Scope Z_scope.
Import HandTracking.

(** A centroid scaled to a frame lies in the frame. *)
Lemma scaled_centroid (sum count size frame : Z) :
  0 < count -> 0 < size -> 0 <= sum <= size * count -> 0 <= frame ->
  (0 <= inject_Z sum / inject_Z count * (inject_Z frame / inject_Z size)
   <= inject_Z frame)%Q.
Proof.
  intros Hc Hs Hsum Hf.
  destruct count as [| c | c]; try lia. destruct size as [| s | s]; try lia.
  unfold Qle, Qdiv, Qmult, Qinv, inject_Z. cbn. split; nia.
Qed.

(** The coordinates of a published pointer. *)
Lemma estimate_bounds_aux (a b : ImageData) (e : Env) (width height : Z) :
  0 < width -> 0 < height -> 0 <= videoWidth e -> 0 <= videoHeight e ->
  match estimate e width height (scan a b width height) with
  | Some hand =>
      (0 <= x hand <= inject_Z (videoWidth e))%Q /\
      (0 <= y hand <= inject_Z (videoHeight e))%Q
  | None => True
  end.
Proof.
  intros Hw Hh Hvw Hvh.
  destruct (scan_bounds_aux a b width height) as (B0 & BX & BY); [lia | lia |].
  unfold estimate.
  destruct (30 <? motionCount (scan a b width height)) eqn:E;
    [apply Z.ltb_lt in E | exact I].
  cbn [x y].
  split; [apply scaled_centroid; lia | apply scaled_centroid; nia].
Qed.

(** X17: when the count of motion pixels is above 30 the callback gets a
    pointer that lies in the video frame, 0 <= x <= videoWidth and
    0 <= y <= videoHeight, and is open exactly when the count is above 150;
    otherwise it gets null. *)
Theorem estimate_in_video (a b : ImageData) (e : Env) (width height : Z) :
  0 < width -> 0 < height -> 0 <= videoWidth e -> 0 <= videoHeight e ->
  let m := scan a b width height in
  match estimate e width height m with
  | Some hand =>
      30 < motionCount m /\
      (0 <= x hand <= inject_Z (videoWidth e))%Q /\
      (0 <= y hand <= inject_Z (videoHeight e))%Q /\
      (isOpen hand = true <-> 150 < motionCount m)
  | None => motionCount m <= 30
  end.
Proof.
  intros Hw Hh Hvw Hvh m.
  pose proof (estimate_bounds_aux a b e width height Hw Hh Hvw Hvh) as H.
  fold m in H. unfold estimate in *.
  destruct (30 <? motionCount m) eqn:E;
    [apply Z.ltb_lt in E | apply Z.ltb_ge in E; exact E].
  destruct H as (Hx & Hy).
  split; [exact E | split; [exact Hx | split; [exact Hy |]]].
  cbn [isOpen]. apply Z.ltb_lt.
Qed.

End PointerPosition.

(** *** A grey frame after a black one *)

Section GreyAfterBlack.
Local Open Scope Z_scope.
Import HandTracking.

Lemma channel_repeat (v : Z) (n : nat) (i : Z) :
  0 <= i < Z.of_nat n -> channel (mkImageData (repeat v n)) i = Some v.
Proof.
  intro H. unfold channel. cbn [data].
  replace (i <? 0) with false by (symmetry; apply Z.ltb_ge; lia).
  apply nth_error_repeat. lia.
Qed.

(** Every sample of the surface is a motion pixel. *)
Lemma grey_black_motion (y x : Z) :
  In y (steps 120) -> In x (steps 160) ->
  isMotionPixel Frames.grey Frames.black 160 y x = true.
Proof.
  intros Hy Hx.
  apply steps_In in Hy as (qy & Hqy & -> & Hy).
  apply steps_In in Hx as (qx & Hqx & -> & Hx).
  unfold isMotionPixel, Frames.grey, Frames.black.
  rewrite !channel_repeat by lia.
  cbn [absDiff]. apply exceeds_mean3. lia.
Qed.

Lemma filter_all {A : Type} (f : A -> bool) (l : list A) :
  (forall a, In a l -> f a = true) -> filter f l = l.
Proof.
  induction l as [| a l IH]; intro H; cbn [filter]; [reflexivity |].
  rewrite (H a (or_introl eq_refl)). f_equal. apply IH.
  intros b Hb. apply H. right. exact Hb.
Qed.

Lemma grey_black_count :
  motionCount (scan Frames.grey Frames.black 160 120) = 1200.
Proof.
  unfold scan. rewrite rows_count. cbn [motionCount].
  rewrite filter_all.
  - rewrite length_prod.
    replace (length (steps 120)) with 30%nat by (vm_compute; reflexivity).
    replace (length (steps 160)) with 40%nat by (vm_compute; reflexivity).
    reflexivity.
  - intros [y x] Hin. apply in_prod_iff in Hin as [Hy Hx].
    cbn [fst snd]. apply grey_black_motion; assumption.
Qed.

(** The pointer published for the two frames is an open hand. *)
Lemma grey_black_estimate (e : Env) :
  exists px py : Q,
    estimate e 160 120 (scan Frames.grey Frames.black 160 120)
    = Some (mkHandData px py true).
Proof.
  unfold estimate. rewrite grey_black_count.
  replace (30 <? 1200) with true by reflexivity.
  replace (150 <? 1200) with true by reflexivity.
  eexists. eexists. reflexivity.
Qed.

End GreyAfterBlack.

(** The theorem for a grey frame after a black one on the 160x120 analysis
    surface, from a 320x240 video: all 1200 samples move, and the callback
    gets an open hand inside the video frame. *)
Lemma estimate_in_video_witness :
  exists hand : HandTracking.HandData,
    HandTracking.estimate
      (HandTracking.mkEnv false false 4 320 240 true (Some Frames.grey))
      160 120 (HandTracking.scan Frames.grey Frames.black 160 120)
    = Some hand /\
    HandTracking.motionCount (HandTracking.scan Frames.grey Frames.black 160 120)
    = 1200%Z /\
    HandTracking.isOpen hand = true /\
    (0 <= HandTracking.x hand <= inject_Z 320)%Q /\
    (0 <= HandTracking.y hand <= inject_Z 240)%Q.
Proof.
  pose proof (estimate_in_video Frames.grey Frames.black
                (HandTracking.mkEnv false false 4 320 240 true (Some Frames.grey))
                160 120 eq_refl eq_refl
                (fun H : (0 ?= 320)%Z = Gt => ltac:(discriminate H))
                (fun H : (0 ?= 240)%Z = Gt => ltac:(discriminate H))) as H.
  cbv zeta in H.
  destruct (grey_black_estimate
              (HandTracking.mkEnv false false 4 320 240 true (Some Frames.grey)))
    as (qx & qy & E).
  rewrite E in H. destruct H as (_ & Hx & Hy & _).
  exists (HandTracking.mkHandData qx qy true).
  split; [exact E |].
  split; [exact grey_black_count |].
  split; [reflexivity |].
  split; [exact Hx | exact Hy].
Defined.

Section PointerOnCanvas.
Local Open Scope R_scope.
Import HandTracking.

(** The pointer slot is empty or holds a point of the canvas. *)
Local Abbreviation on_canvas cw ch slot :=
  (match slot with
   | Some h =>
       0 <= ParticleSystem.hx h <= cw /\ 0 <= ParticleSystem.hy h <= ch
   | None => True
   end).

Lemma Q2R_inject_Z (z : Z) : Q2R (inject_Z z) = IZR z.
Proof. unfold Q2R, inject_Z. cbn. field. Qed.

Lemma scaled_to_canvas (q : Q) (frame : Z) (size : R) :
  (0 <= q <= inject_Z frame)%Q -> (0 < frame)%Z -> 0 <= size ->
  0 <= Q2R q * (size / IZR frame) <= size.
Proof.
  intros [Hlo Hhi] Hf Hs.
  apply Qle_Rle in Hlo, Hhi. rewrite Q2R_inject_Z in Hhi.
  replace (Q2R 0) with 0 in Hlo by (unfold Q2R; cbn; field).
  assert (HF : 0 < IZR frame) by (apply IZR_lt; exact Hf).
  assert (Hr : 0 <= size / IZR frame)
    by (apply Rmult_le_pos; [exact Hs | left; apply Rinv_0_lt_compat; exact HF]).
  split; [apply Rmult_le_pos; assumption |].
  replace size with (IZR frame * (size / IZR frame)) at 2 by (field; lra).
  apply Rmult_le_compat_r; assumption.
Qed.

(** X18: with a 320x240 video, a tick of the estimator whose callback is
    [handleHandUpdate] leaves the pointer slot empty or holding a point of
    the canvas, 0 <= x <= canvas width and 0 <= y <= canvas height,
    provided the slot was so before the tick. *)
Theorem processFrame_pointer_on_canvas
    (e : Env) (st : State) (cw ch : R) (store : ParticleSystem.Store) :
  videoWidth e = 320%Z -> videoHeight e = 240%Z ->
  (forall width height : Z,
     canvas st = Some (width, height) -> (0 < width)%Z /\ (0 < height)%Z) ->
  0 <= cw -> 0 <= ch ->
  on_canvas cw ch (ParticleSystem.handPosition store) ->
  on_canvas cw ch
    (ParticleSystem.handPosition
       (snd (processFrame ParticleSystem.Store
               (FluidSimulation.handleHandUpdate (Some (cw, ch))) e (st, store)))).
Proof.
  intros Hvw Hvh Hcanvas Hcw Hch Hslot. unfold processFrame.
  destruct (negb (isRunning st)); [exact Hslot |].
  destruct (canvas st) as [[width height] |] eqn:Hc; [| exact Hslot].
  destruct (Hcanvas width height eq_refl) as [Hw Hh].
  destruct (negb (video st) || paused e || ended e || (readyState e <? 2)%Z);
    [exact Hslot |].
  destruct (negb (hasContext e)); [exact Hslot |].
  destruct (capture e) as [currentFrame |]; [| exact Hslot].
  destruct (prevFrame st) as [prev |]; [| exact Hslot].
  cbn [snd].
  pose proof (estimate_bounds_aux currentFrame prev e width height Hw Hh) as H.
  rewrite Hvw, Hvh in H. specialize (H ltac:(lia) ltac:(lia)).
  destruct (estimate e width height (scan currentFrame prev width height))
    as [hand |]; [| exact I].
  destruct H as (Hx & Hy).
  cbn [FluidSimulation.handleHandUpdate ParticleSystem.setHandPosition
       ParticleSystem.handPosition ParticleSystem.hx ParticleSystem.hy].
  split; [apply (scaled_to_canvas _ 320) | apply (scaled_to_canvas _ 240)];
    try assumption; lia.
Qed.

End PointerOnCanvas.

(** *** A tick that publishes a pointer *)

Section PublishingTick.
Import HandTracking.

(** On a tick that reaches the scan with a previous frame, the caller's
    world is what the callback makes of the estimate. *)
Lemma processFrame_publishes (World : Type)
    (onHandUpdate : option HandData -> World -> World)
    (e : Env) (st : State) (w : World) (width height : Z)
    (prev currentFrame : ImageData) :
  isRunning st = true -> video st = true -> canvas st = Some (width, height) ->
  paused e = false -> ended e = false -> (2 <= readyState e)%Z ->
  hasContext e = true -> capture e = Some currentFrame ->
  prevFrame st = Some prev ->
  snd (processFrame World onHandUpdate e (st, w))
  = onHandUpdate (estimate e width height (scan currentFrame prev width height)) w.
Proof.
  intros Hrun Hv Hc Hp He Hr Hctx Hcap Hprev.
  rewrite (processFrame_ready World onHandUpdate e st w width height currentFrame)
    by assumption.
  rewrite Hprev. reflexivity.
Qed.

(** [handleHandUpdate] on a pointer, the canvas being there. *)
Lemma handleHandUpdate_pointer (cw ch : R) (hand : HandData)
    (store : ParticleSystem.Store) :
  ParticleSystem.handPosition
    (FluidSimulation.handleHandUpdate (Some (cw, ch)) (Some hand) store)
  = Some (ParticleSystem.mkHand
            (Q2R (x hand) * (cw / 320))%R (Q2R (y hand) * (ch / 240))%R
            (isOpen hand)).
Proof. reflexivity. Qed.

End PublishingTick.

(** The theorem for a running 160x120 estimator that saw a black frame and
    now sees a grey one, and an 800x600 canvas whose slot is empty: the
    slot then holds an open hand, and it lies on the canvas. *)
Lemma processFrame_pointer_on_canvas_witness :
  exists h : ParticleSystem.HandPosition,
    ParticleSystem.handPosition
      (snd (HandTracking.processFrame ParticleSystem.Store
              (FluidSimulation.handleHandUpdate (Some (800, 600)%R))
              (HandTracking.mkEnv false false 4 320 240 true (Some Frames.grey))
              (HandTracking.mkState true (Some (160, 120)%Z) (Some Frames.black)
                 true true,
               ParticleSystem.mkStore [] None 0)))
    = Some h /\
    ParticleSystem.isOpen h = true /\
    (0 <= ParticleSystem.hx h <= 800)%R /\ (0 <= ParticleSystem.hy h <= 600)%R.
Proof.
  assert (Hcanvas : forall width height : Z,
            Some (160, 120)%Z = Some (width, height) ->
            (0 < width)%Z /\ (0 < height)%Z)
    by (intros width height E; injection E as <- <-; split; reflexivity).
  pose proof (processFrame_pointer_on_canvas
                (HandTracking.mkEnv false false 4 320 240 true (Some Frames.grey))
                (HandTracking.mkState true (Some (160, 120)%Z) (Some Frames.black)
                   true true)
                800%R 600%R (ParticleSystem.mkStore [] None 0)
                eq_refl eq_refl Hcanvas
                ltac:(lra) ltac:(lra) I) as H.
  destruct (grey_black_estimate
              (HandTracking.mkEnv false false 4 320 240 true (Some Frames.grey)))
    as (qx & qy & E).
  rewrite (processFrame_publishes ParticleSystem.Store
             (FluidSimulation.handleHandUpdate (Some (800, 600)%R))
             (HandTracking.mkEnv false false 4 320 240 true (Some Frames.grey))
             (HandTracking.mkState true (Some (160, 120)%Z) (Some Frames.black)
                true true)
             (ParticleSystem.mkStore [] None 0) 160 120 Frames.black Frames.grey
             eq_refl eq_refl eq_refl eq_refl eq_refl
             (fun G : (2 ?= 4)%Z = Gt => ltac:(discriminate G))
             eq_refl eq_refl eq_refl)
    in H |- *.
  rewrite E in H |- *.
  rewrite handleHandUpdate_pointer in H |- *.
  eexists. split; [reflexivity |].
  split; [reflexivity | exact H].
Defined.

(** ** [initialize] and [stop] *)

Section CameraProperties.
Import HandTracking Camera.

(** X19: a call of [initialize] that fails, the estimator not running,
    does not start the analysis: it is not running, no animation frame is
    requested, canvas and previous frame are as before, loading and active
    are off and an error text is set.  The video element stays in its ref,
    and so does the stream when the failure came after the camera was
    granted, until [stop] clears them. *)
Theorem initialize_failure (o : Outcome) (hk : Hook) :
  isRunning (refs hk) = false -> o <> CameraReady ->
  let hk' := initialize o hk in
  isRunning (refs hk') = false /\
  scheduled (refs hk') = scheduled (refs hk) /\
  canvas (refs hk') = canvas (refs hk) /\
  prevFrame (refs hk') = prevFrame (refs hk) /\
  isLoading hk' = false /\ isActive hk' = false /\ error hk' <> None /\
  video (refs hk') = true /\
  (forall err, o = VideoFailed err -> stream hk' = true) /\
  (forall err, o = StreamRefused err -> stream hk' = stream hk) /\
  stream (stop hk') = false /\ video (refs (stop hk')) = false.
Proof.
  intros Hrun Ho. cbn zeta. unfold initialize, initializeBegin.
  rewrite Hrun.
  destruct o as [err | err |]; [| | contradiction];
    cbn; rewrite ?Hrun; repeat split; try discriminate; auto.
Qed.

(** The theorem for a camera that never delivers a frame. *)
Lemma initialize_failure_witness :
  let hk' := initialize (VideoFailed (Some "Camera timeout"%string)) mounted in
  isRunning (refs hk') = false /\
  scheduled (refs hk') = scheduled (refs mounted) /\
  canvas (refs hk') = canvas (refs mounted) /\
  prevFrame (refs hk') = prevFrame (refs mounted) /\
  isLoading hk' = false /\ isActive hk' = false /\ error hk' <> None /\
  video (refs hk') = true /\
  (forall err, VideoFailed (Some "Camera timeout"%string) = VideoFailed err ->
     stream hk' = true) /\
  (forall err, VideoFailed (Some "Camera timeout"%string) = StreamRefused err ->
     stream hk' = stream mounted) /\
  stream (stop hk') = false /\ video (refs (stop hk')) = false.
Proof.
  apply (initialize_failure (VideoFailed (Some "Camera timeout"%string)) mounted);
    [reflexivity | discriminate].
Defined.

(** X20: [stop] called while [initialize] waits, for the camera or for the
    video, does not end that call: when it resumes it marks the estimator
    running and active and requests an animation frame, although the video
    ref is cleared; from then on every [processFrame] publishes nothing and
    stores no frame.  When [stop] came before the camera was granted, the
    stream is held. *)
Theorem stop_during_initialize (hk : Hook) :
  isRunning (refs hk) = false ->
  let waiting := fst (initializeBegin hk) in
  let early := initializeReady (initializeStream (stop waiting)) in
  let late := initializeReady (stop (initializeStream waiting)) in
  (isRunning (refs early) = true /\ scheduled (refs early) = true /\
   isActive early = true /\ video (refs early) = false /\ stream early = true) /\
  (isRunning (refs late) = true /\ scheduled (refs late) = true /\
   isActive late = true /\ video (refs late) = false /\ stream late = false) /\
  (forall (World : Type) (onHandUpdate : option HandData -> World -> World)
          (e : Env) (w : World),
     processFrame World onHandUpdate e (refs early, w) = (refs early, w) /\
     processFrame World onHandUpdate e (refs late, w) = (refs late, w)).
Proof.
  intro Hrun. cbn zeta. unfold initializeBegin. rewrite Hrun.
  repeat split.
Qed.

(** The theorem for the mounted hook. *)
Lemma stop_during_initialize_witness :
  let waiting := fst (initializeBegin mounted) in
  let early := initializeReady (initializeStream (stop waiting)) in
  let late := initializeReady (stop (initializeStream waiting)) in
  (isRunning (refs early) = true /\ scheduled (refs early) = true /\
   isActive early = true /\ video (refs early) = false /\ stream early = true) /\
  (isRunning (refs late) = true /\ scheduled (refs late) = true /\
   isActive late = true /\ video (refs late) = false /\ stream late = false) /\
  (forall (World : Type) (onHandUpdate : option HandData -> World -> World)
          (e : Env) (w : World),
     processFrame World onHandUpdate e (refs early, w) = (refs early, w) /\
     processFrame World onHandUpdate e (refs late, w) = (refs late, w)).
Proof.
  apply (stop_during_initialize mounted). reflexivity.
Defined.

(** X21: a successful [initialize] with nothing in between sets the refs
    as [initialized] does, and makes the estimator running and active with
    the stream held; a further [initialize] then changes nothing, whatever
    the camera would answer; after [stop] a new [initialize] starts again,
    with no previous frame. *)
Theorem initialize_once (o : Outcome) (hk : Hook) :
  let hk' := initialize CameraReady hk in
  refs hk' = initialized (refs hk) /\
  isRunning (refs hk') = true /\
  (isRunning (refs hk) = false ->
   stream hk' = true /\ isActive hk' = true /\ isLoading hk' = false /\
   error hk' = None) /\
  initialize o hk' = hk' /\
  refs (initialize CameraReady (stop hk'))
  = mkState true (Some (160, 120)%Z) None true true.
Proof.
  cbn zeta. unfold initialize, initializeBegin, initialized.
  destruct (isRunning (refs hk)) eqn:Hrun.
  - rewrite Hrun. repeat split; try discriminate; auto.
  - cbn. repeat split.
Qed.

End CameraProperties.

(** * The landmark-based variant *)

Section LandmarkProperties.
Local Open Scope R_scope.
Import Num LandmarkTracking.

Lemma nth_error_at (lms : list Landmark) (i : nat) (d : Landmark) :
  (i < length lms)%nat -> nth_error lms i = Some (nth i lms d).
Proof. intro H. apply nth_error_nth'. exact H. Qed.

(** X22: with the 21 landmarks of a hand, the four fingers decide whenever
    the thumb cannot change the count across 3: if at least three of the
    tips 8, 12, 16, 20 are above (smaller y than) their bases 5, 9, 13, 17
    the hand is open, and if at most one is, it is not open, whatever the
    thumb landmarks 4 and 2 are. *)
Theorem calculateHandOpenness_fingers_decide (lms : list Landmark) :
  (20 < length lms)%nat ->
  let landmark (i : nat) := nth i lms (mkLandmark 0 0 0) in
  let raised (tip base : nat) :=
    if ltb (y (landmark tip)) (y (landmark base)) then 1%nat else 0%nat in
  let fingers := (raised 8 5 + raised 12 9 + raised 16 13 + raised 20 17)%nat in
  ((3 <= fingers)%nat -> calculateHandOpenness lms = Some true) /\
  ((fingers <= 1)%nat -> calculateHandOpenness lms = Some false).
Proof.
  intros Hlen landmark raised fingers.
  unfold calculateHandOpenness.
  cbn [combine fingerTips fingerBases countExtended].
  rewrite !(fun i H => nth_error_at lms i (mkLandmark 0 0 0) H) by lia.
  subst fingers raised landmark. cbn beta.
  destruct (ltb (y (nth 8 lms _)) (y (nth 5 lms _)));
    destruct (ltb (y (nth 12 lms _)) (y (nth 9 lms _)));
    destruct (ltb (y (nth 16 lms _)) (y (nth 13 lms _)));
    destruct (ltb (y (nth 20 lms _)) (y (nth 17 lms _)));
    destruct (ltb 0.05 (Rabs (x (nth 4 lms _) - x (nth 2 lms _))));
    cbn; split; intro H; try reflexivity; exfalso; lia.
Qed.

Lemma nth_error_present (lms : list Landmark) (i : nat) :
  (i < length lms)%nat -> exists lm, nth_error lms i = Some lm.
Proof.
  intro H. destruct (nth_error lms i) as [lm |] eqn:E; [exists lm; reflexivity |].
  apply nth_error_None in E. lia.
Qed.

(** With 21 landmarks, the openness is computed. *)
Lemma calculateHandOpenness_total (lms : list Landmark) :
  (20 < length lms)%nat -> exists open, calculateHandOpenness lms = Some open.
Proof.
  intro H. unfold calculateHandOpenness, fingerTips, fingerBases.
  cbn [combine countExtended].
  repeat match goal with
         | |- context [nth_error lms ?i] =>
             let lm := fresh "lm" in
             let E := fresh "E" in
             destruct (nth_error_present lms i ltac:(lia)) as [lm E];
             rewrite E
         end.
  eexists. reflexivity.
Qed.

(** X23: for a hand of 21 landmarks with normalized coordinates in [0,1]
    and a video of non-negative size, [onResults] calls the callback with a
    pointer that lies in the video frame, as do all the landmarks it
    passes on, and whose openness is the one computed from the landmarks. *)
Theorem onResults_in_video
    (lms : list Landmark) (others : list (list Landmark))
    (videoWidth videoHeight : R) :
  (20 < length lms)%nat ->
  Forall (fun lm => 0 <= x lm <= 1 /\ 0 <= y lm <= 1) lms ->
  0 <= videoWidth -> 0 <= videoHeight ->
  exists hand : HandData,
    onResults (Some (lms :: others)) (Some (videoWidth, videoHeight))
    = Called (Some hand) /\
    0 <= hand_x hand <= videoWidth /\
    0 <= hand_y hand <= videoHeight /\
    Forall (fun xy => 0 <= fst xy <= videoWidth /\ 0 <= snd xy <= videoHeight)
      (landmarks hand) /\
    calculateHandOpenness lms = Some (isOpen hand).
Proof.
  intros Hlen Hnorm Hw Hh. unfold onResults.
  destruct (nth_error_present lms 0 ltac:(lia)) as [wrist Ewrist].
  destruct (nth_error_present lms 9 ltac:(lia)) as [middleMcp Emcp].
  destruct (calculateHandOpenness_total lms Hlen) as [open Eopen].
  rewrite Ewrist, Emcp, Eopen.
  eexists. split; [reflexivity |]. cbn [hand_x hand_y landmarks isOpen].
  rewrite Forall_forall in Hnorm.
  pose proof (Hnorm wrist (nth_error_In _ _ Ewrist)) as [Hwx Hwy].
  pose proof (Hnorm middleMcp (nth_error_In _ _ Emcp)) as [Hmx Hmy].
  split; [nra | split; [nra | split; [| reflexivity]]].
  apply Forall_forall. intros xy Hin.
  apply in_map_iff in Hin as (lm & <- & Hlm).
  destruct (Hnorm lm Hlm) as [Hx Hy]. cbn [fst snd]. nra.
Qed.

(** X24: [onResults] calls the callback with null when no hand is reported,
    does not call it when the video element is missing, and throws, with
    no call, when the first hand has fewer than 21 landmarks. *)
Theorem onResults_edges
    (lms : list Landmark) (others : list (list Landmark)) (video : R * R) :
  onResults None (Some video) = Called None /\
  onResults (Some []) (Some video) = Called None /\
  onResults (Some (lms :: others)) None = NotCalled /\
  ((length lms <= 20)%nat ->
   onResults (Some (lms :: others)) (Some video) = Threw).
Proof.
  repeat split. intro Hlen. unfold onResults. destruct video as [vw vh].
  destruct (nth_error lms 0) as [wrist |]; [| reflexivity].
  destruct (nth_error lms 9) as [middleMcp |]; [| reflexivity].
  assert (E : calculateHandOpenness lms = None).
  { unfold calculateHandOpenness, fingerTips, fingerBases.
    cbn [combine countExtended].
    assert (E20 : nth_error lms 20 = None) by (apply nth_error_None; lia).
    destruct (nth_error lms 8); [| reflexivity].
    destruct (nth_error lms 5); [| reflexivity].
    destruct (nth_error lms 12); [| reflexivity].
    destruct (nth_error lms 9); [| reflexivity].
    destruct (nth_error lms 16); [| reflexivity].
    destruct (nth_error lms 13); [| reflexivity].
    rewrite E20. reflexivity. }
  rewrite E. reflexivity.
Qed.

End LandmarkProperties.

(** The theorem at the raised hand: four fingers are up, and the hand is
    open although the thumb is not counted. *)
Lemma calculateHandOpenness_fingers_decide_witness :
  (20 < length LandmarkTracking.raisedHand)%nat /\
  LandmarkTracking.calculateHandOpenness LandmarkTracking.raisedHand = Some true /\
  Num.ltb 0.05
    (Rabs (LandmarkTracking.x
             (nth 4 LandmarkTracking.raisedHand (LandmarkTracking.mkLandmark 0 0 0))
           - LandmarkTracking.x
               (nth 2 LandmarkTracking.raisedHand
                  (LandmarkTracking.mkLandmark 0 0 0))))
  = false.
Proof.
  assert (Hlen : (20 < length LandmarkTracking.raisedHand)%nat) by (cbn; lia).
  split; [exact Hlen |]. split.
  - apply (proj1 (calculateHandOpenness_fingers_decide
                    LandmarkTracking.raisedHand Hlen)).
    cbn. rewrite !(proj2 (ltb_true 0.2 0.6)) by lra. cbn. lia.
  - cbn. apply ltb_false. rewrite Rminus_diag. rewrite Rabs_R0. lra.
Defined.

(** The theorem for a hand of 21 landmarks in the middle of a 640x480
    image. *)
Lemma onResults_in_video_witness :
  exists hand : LandmarkTracking.HandData,
    LandmarkTracking.onResults
      (Some [repeat (LandmarkTracking.mkLandmark 0.5 0.5 0) 21])
      (Some (640, 480)%R)
    = LandmarkTracking.Called (Some hand) /\
    (0 <= LandmarkTracking.hand_x hand <= 640)%R /\
    (0 <= LandmarkTracking.hand_y hand <= 480)%R /\
    Forall (fun xy => (0 <= fst xy <= 640)%R /\ (0 <= snd xy <= 480)%R)
      (LandmarkTracking.landmarks hand) /\
    LandmarkTracking.calculateHandOpenness
      (repeat (LandmarkTracking.mkLandmark 0.5 0.5 0) 21)
    = Some (LandmarkTracking.isOpen hand).
Proof.
  apply (onResults_in_video
           (repeat (LandmarkTracking.mkLandmark 0.5 0.5 0) 21) [] 640%R 480%R).
  - cbn. lia.
  - cbn [repeat]. repeat constructor;
      cbn [LandmarkTracking.x LandmarkTracking.y]; lra.
  - lra.
  - lra.
Defined.
